(** * Shelfworthy: the post-to-record pipeline of [post_classifier.py]

    A shallow embedding of [PostClassifier] (src/post_classifier.py) over the
    schema of src/database.py, and the properties of its normalisation rules,
    its lookup-or-create persistence operations and its batch loop.

    Text is modelled as [string] over ASCII characters: Python's [str.lower],
    [str.title], [str.strip] and [str.split] are embedded with their behaviour
    on code points below 128 (characters above are carried along as uncased,
    non-blank characters). *)

From Stdlib Require Import String Ascii List Bool Arith ZArith Lia.
Import ListNotations.
Open Scope string_scope.
Open Scope nat_scope.

(** ** Python string primitives used by [extract_entities] *)

Module PyStr.

(** [c.isspace()] on ASCII: TAB..CR, FS..US and the blank. *)
Definition isspace (c : ascii) : bool :=
  let n := nat_of_ascii c in
  ((9 <=? n) && (n <=? 13)) || ((28 <=? n) && (n <=? 32)).

Definition isupper (c : ascii) : bool :=
  let n := nat_of_ascii c in (65 <=? n) && (n <=? 90).

Definition islower (c : ascii) : bool :=
  let n := nat_of_ascii c in (97 <=? n) && (n <=? 122).

(** A cased character is one that has an upper and a lower form. *)
Definition iscased (c : ascii) : bool := isupper c || islower c.

Definition lower_char (c : ascii) : ascii :=
  if isupper c then ascii_of_nat (nat_of_ascii c + 32) else c.

Definition upper_char (c : ascii) : ascii :=
  if islower c then ascii_of_nat (nat_of_ascii c - 32) else c.

(** [s.lower()] *)
Fixpoint lower (s : string) : string :=
  match s with
  | EmptyString => EmptyString
  | String c s' => String (lower_char c) (lower s')
  end.

(** [s.title()]: the first cased character after an uncased one is put in
    upper case, every other cased character in lower case. *)
Fixpoint title_from (prev_cased : bool) (s : string) : string :=
  match s with
  | EmptyString => EmptyString
  | String c s' =>
      if iscased c
      then String (if prev_cased then lower_char c else upper_char c)
                  (title_from true s')
      else String c (title_from false s')
  end.

Definition title (s : string) : string := title_from false s.

(** [s.startswith(p)] *)
Fixpoint startswith (p s : string) : bool :=
  match p, s with
  | EmptyString, _ => true
  | String _ _, EmptyString => false
  | String a p', String b s' => Ascii.eqb a b && startswith p' s'
  end.

(** [sub in s] *)
Fixpoint contains (sub s : string) : bool :=
  match s with
  | EmptyString => startswith sub EmptyString
  | String _ s' => startswith sub s || contains sub s'
  end.

(** [s.replace(old, new)] for a non-empty [old]: the occurrences of [old]
    are found left to right without overlap.  [skip] counts the characters
    of a matched occurrence that are still to be passed over. *)
Fixpoint replace_from (old new : string) (skip : nat) (s : string) : string :=
  match s with
  | EmptyString => EmptyString
  | String c s' =>
      match skip with
      | S k => replace_from old new k s'
      | O =>
          if startswith old s
          then new ++ replace_from old new (String.length old - 1) s'
          else String c (replace_from old new 0 s')
      end
  end.

(** [s.replace(old, new)]; with an empty [old] Python puts [new] before
    every character and at the end. *)
Fixpoint intersperse (new s : string) : string :=
  match s with
  | EmptyString => new
  | String c s' => new ++ String c (intersperse new s')
  end.

Definition replace (s old new : string) : string :=
  match old with
  | EmptyString => intersperse new s
  | String _ _ => replace_from old new 0 s
  end.

(** [s.lstrip()], [s.rstrip()], [s.strip()] *)
Fixpoint lstrip (s : string) : string :=
  match s with
  | EmptyString => EmptyString
  | String c s' => if isspace c then lstrip s' else s
  end.

Fixpoint rstrip (s : string) : string :=
  match s with
  | EmptyString => EmptyString
  | String c s' =>
      match rstrip s' with
      | EmptyString => if isspace c then EmptyString else String c EmptyString
      | r => String c r
      end
  end.

Definition strip (s : string) : string := rstrip (lstrip s).

(** [s.split(sep)[0]] for a one-character separator: the text before the
    first [sep], the whole of [s] when there is none. *)
Fixpoint split_first (sep : ascii) (s : string) : string :=
  match s with
  | EmptyString => EmptyString
  | String c s' =>
      if Ascii.eqb c sep then EmptyString else String c (split_first sep s')
  end.

(** [s.split()]: the maximal runs of non-blank characters. *)
Definition push_char (c : ascii) (ws : list string) : list string :=
  match ws with
  | [] => [String c EmptyString]
  | w :: r => String c w :: r
  end.

Fixpoint split (s : string) : list string :=
  match s with
  | EmptyString => []
  | String c s' =>
      if isspace c then split s'
      else
        match s' with
        | EmptyString => [String c EmptyString]
        | String d _ =>
            if isspace d then String c EmptyString :: split s'
            else push_char c (split s')
        end
  end.

(** [sep.join(ws)] *)
Fixpoint join (sep : string) (ws : list string) : string :=
  match ws with
  | [] => EmptyString
  | [w] => w
  | w :: r => w ++ sep ++ join sep r
  end.

(** [x in xs] for a list of strings. *)
Definition mem (x : string) (xs : list string) : bool :=
  existsb (String.eqb x) xs.

End PyStr.

(** ** The cleaning rules of [extract_entities] (lines 81-99) *)

Definition title_placeholders : list string := ["booksky"; "unknown"; "none"].
Definition author_placeholders : list string :=
  ["unknown"; "none"; "author"; "anonymous"].

(** Python truthiness of a [str]. *)
Definition truthy (s : string) : bool :=
  match s with EmptyString => false | String _ _ => true end.

(** Lines 82-91: the book title, given the raw author and the raw title. *)
Definition clean_book_title (author book_title : string) : option string :=
  if negb (truthy book_title)
     || PyStr.mem (PyStr.lower book_title) title_placeholders
  then None
  else
    let book_title :=
      if truthy author
         && PyStr.contains (PyStr.lower author) (PyStr.lower book_title)
      then PyStr.strip
             (PyStr.replace (PyStr.lower book_title) (PyStr.lower author) "")
      else book_title in
    let book_title := PyStr.strip (PyStr.split_first "/" book_title) in
    Some (PyStr.title book_title).

(** Lines 94-98: the author. *)
Definition clean_author (author : string) : option string :=
  if negb (truthy author)
     || PyStr.mem (PyStr.lower author) author_placeholders
  then None
  else Some (PyStr.title (PyStr.join " " (PyStr.split author))).

(** ** The schema of src/database.py

    Each table is the list of its rows in insertion order.  [saved_at], a
    wall-clock default that no operation reads, and the ORM relationships,
    which are views of the foreign keys, are left out. *)

Definition datetime := Z.

Module Genre.
Record t := { id : Z; name : string; description : option string }.
End Genre.

Module Book.
(** [author: str] and [genre_id: int] are not nullable. *)
Record t := { id : Z; title : string; author : string; genre_id : Z }.
End Book.

Module Post.
Record t := {
  id : Z; handle : string; display_name : string; text : string;
  timestamp : datetime; like_count : Z; uri : string }.
End Post.

Module ClassifiedPost.
Record t := { post_id : Z; genre_id : Z }.
End ClassifiedPost.

Module SavedSkeet.
Record t := { id : Z; post_id : Z; user_id : Z; book_id : option Z }.
End SavedSkeet.

Record DB := {
  posts : list Post.t;
  genres : list Genre.t;
  books : list Book.t;
  classified_posts : list ClassifiedPost.t;
  saved_skeets : list SavedSkeet.t }.

Definition empty_db : DB :=
  {| posts := []; genres := []; books := [];
     classified_posts := []; saved_skeets := [] |}.

(** The integer primary key given to a new row: one more than the largest
    key in the table. *)
Definition next_id (ids : list Z) : Z := (1 + fold_right Z.max 0 ids)%Z.

(** ** Exceptions, and computations over the store *)

Inductive exn :=
| ExternalServiceError (detail : string)
| ValueError (msg : string)
| IndexError (msg : string)
| IntegrityError (msg : string).

Inductive result (A : Type) :=
| Ok (a : A)
| Raise (e : exn).
Arguments Ok {A} a.
Arguments Raise {A} e.

(** A computation reads and commits to the store, and returns or raises.
    What was committed before an exception stays committed. *)
Definition M (A : Type) : Type := DB -> DB * result A.

Definition ret {A} (a : A) : M A := fun db => (db, Ok a).
Definition raise {A} (e : exn) : M A := fun db => (db, Raise e).
Definition bind {A B} (m : M A) (k : A -> M B) : M B :=
  fun db =>
    match m db with
    | (db', Ok a) => k a db'
    | (db', Raise e) => (db', Raise e)
    end.
Definition lift {A} (r : result A) : M A := fun db => (db, r).

Notation "x <- m ;; k" := (bind m (fun x => k))
  (at level 61, m at next level, right associativity).
Notation "m ;;; k" := (bind m (fun _ => k))
  (at level 61, right associativity).

(** ** [PostClassifier] *)

Record PostClassifier := {
  post_text : string;
  handle : string;
  display_name : string;
  like_count : Z;
  timestamp : datetime;
  uri : string }.

(** Lines 106-118 and 169-181, the same block in [save_genre_to_db] and
    [save_skeet_to_db]: the first Post with this text, added when absent. *)
Definition select_post (text : string) (db : DB) : option Post.t :=
  find (fun p => String.eqb (Post.text p) text) (posts db).

Definition post_of (self : PostClassifier) : M Post.t := fun db =>
  match select_post (post_text self) db with
  | Some post => (db, Ok post)
  | None =>
      let post :=
        {| Post.id := next_id (map Post.id (posts db));
           Post.handle := handle self;
           Post.display_name := display_name self;
           Post.text := post_text self;
           Post.timestamp := timestamp self;
           Post.like_count := like_count self;
           Post.uri := uri self |} in
      ({| posts := posts db ++ [post]; genres := genres db; books := books db;
          classified_posts := classified_posts db;
          saved_skeets := saved_skeets db |}, Ok post)
  end.

(** Lines 120-125 and 143-148, the same block in [save_genre_to_db] and
    [save_book_to_db]: the first Genre with this name, added when absent. *)
Definition select_genre (genre_name : string) (db : DB) : option Genre.t :=
  find (fun g => String.eqb (Genre.name g) genre_name) (genres db).

Definition genre_of (genre_name : string) : M Genre.t := fun db =>
  match select_genre genre_name db with
  | Some genre => (db, Ok genre)
  | None =>
      let genre :=
        {| Genre.id := next_id (map Genre.id (genres db));
           Genre.name := genre_name;
           Genre.description := None |} in
      ({| posts := posts db; genres := genres db ++ [genre]; books := books db;
          classified_posts := classified_posts db;
          saved_skeets := saved_skeets db |}, Ok genre)
  end.

(** Lines 127-137. *)
Definition select_classified (post_id genre_id : Z) (db : DB)
  : option ClassifiedPost.t :=
  find (fun cp => Z.eqb (ClassifiedPost.post_id cp) post_id
                  && Z.eqb (ClassifiedPost.genre_id cp) genre_id)
       (classified_posts db).

Definition add_classified (post_id genre_id : Z) : M unit := fun db =>
  match select_classified post_id genre_id db with
  | Some _ => (db, Ok tt)
  | None =>
      let classified_post :=
        {| ClassifiedPost.post_id := post_id;
           ClassifiedPost.genre_id := genre_id |} in
      ({| posts := posts db; genres := genres db; books := books db;
          classified_posts := classified_posts db ++ [classified_post];
          saved_skeets := saved_skeets db |}, Ok tt)
  end.

(** [save_genre_to_db] (lines 102-137). *)
Definition save_genre_to_db (self : PostClassifier) (genre_name : string)
  : M unit :=
  post <- post_of self ;;
  genre <- genre_of genre_name ;;
  add_classified (Post.id post) (Genre.id genre).

(** Lines 153-155.  [author] may be [None]: the comparison is then
    [IS NULL], which no row of the non-nullable column satisfies. *)
Definition select_book (book_title : string) (author : option string) (db : DB)
  : option Book.t :=
  find (fun b => String.eqb (Book.title b) book_title
                 && match author with
                    | Some a => String.eqb (Book.author b) a
                    | None => false
                    end)
       (books db).

(** [save_book_to_db] (lines 139-163).  A Book without an author cannot be
    stored ([author: str]): its commit fails. *)
Definition save_book_to_db (self : PostClassifier) (book_title : string)
    (author : option string) (genre_name : string) : M Book.t :=
  genre <- genre_of genre_name ;;
  if negb (truthy book_title)
  then raise (ValueError "Book title cannot be empty!")
  else fun db =>
    match select_book book_title author db with
    | Some existing_book => (db, Ok existing_book)
    | None =>
        match author with
        | None => (db, Raise (IntegrityError "NOT NULL constraint failed: book.author"))
        | Some a =>
            let book :=
              {| Book.id := next_id (map Book.id (books db));
                 Book.title := book_title;
                 Book.author := a;
                 Book.genre_id := Genre.id genre |} in
            ({| posts := posts db; genres := genres db;
                books := books db ++ [book];
                classified_posts := classified_posts db;
                saved_skeets := saved_skeets db |}, Ok book)
        end
    end.

(** Lines 183-188. *)
Definition select_saved_skeet (post_id : Z) (db : DB) : option SavedSkeet.t :=
  find (fun s => Z.eqb (SavedSkeet.post_id s) post_id
                 && Z.eqb (SavedSkeet.user_id s) 1)
       (saved_skeets db).

(** Line 192: the row with this key gets the book. *)
Definition set_book_id (skeet_id book_id : Z) (s : SavedSkeet.t)
  : SavedSkeet.t :=
  if Z.eqb (SavedSkeet.id s) skeet_id
  then {| SavedSkeet.id := SavedSkeet.id s;
          SavedSkeet.post_id := SavedSkeet.post_id s;
          SavedSkeet.user_id := SavedSkeet.user_id s;
          SavedSkeet.book_id := Some book_id |}
  else s.

(** [save_skeet_to_db] (lines 165-202). *)
Definition save_skeet_to_db (self : PostClassifier) (book : option Book.t)
  : M unit :=
  post <- post_of self ;;
  fun db =>
    match select_saved_skeet (Post.id post) db with
    | Some saved_skeet =>
        match book, SavedSkeet.book_id saved_skeet with
        | Some b, None =>
            ({| posts := posts db; genres := genres db; books := books db;
                classified_posts := classified_posts db;
                saved_skeets :=
                  map (set_book_id (SavedSkeet.id saved_skeet) (Book.id b))
                      (saved_skeets db) |}, Ok tt)
        | _, _ => (db, Ok tt)
        end
    | None =>
        let new_saved_skeet :=
          {| SavedSkeet.id := next_id (map SavedSkeet.id (saved_skeets db));
             SavedSkeet.post_id := Post.id post;
             SavedSkeet.user_id := 1;
             SavedSkeet.book_id := option_map Book.id book |} in
        ({| posts := posts db; genres := genres db; books := books db;
            classified_posts := classified_posts db;
            saved_skeets := saved_skeets db ++ [new_saved_skeet] |}, Ok tt)
    end.

(** ** The external capabilities and the batch loop *)

(** What a call to a remote capability gives: its value, or a failure. *)
Inductive external (A : Type) :=
| Returned (a : A)
| Failed (detail : string).
Arguments Returned {A} a.
Arguments Failed {A} detail.

Definition call {A} (x : external A) : result A :=
  match x with
  | Returned a => Ok a
  | Failed detail => Raise (ExternalServiceError detail)
  end.

(** A fetched post: [text] and [timestamp] are read with [post[...]], the
    other keys with [post.get(key, default)]. *)
Module Raw.
Record t := {
  text : string;
  handle : option string;
  display_name : option string;
  like_count : option Z;
  timestamp : string;
  uri : option string }.
End Raw.

(** A fetched post after the loop has written its three keys into it. *)
Record Annotated := {
  raw : Raw.t;
  predicted_genre : string;
  authors : list (option string);
  book_titles : list (option string) }.

Definition get {A} (x : option A) (default : A) : A :=
  match x with Some a => a | None => default end.

Definition candidate_labels : list string :=
  ["science fiction"; "fantasy"; "self-help"; "romance"; "thriller"].

Section Pipeline.

(** The zero-shot classifier: the labels by decreasing score. *)
Variable zero_shot_classification :
  string -> list string -> external (list string).

(** The question-answering model, given a question and a context: no
    result ([None]), or a result with or without an ["answer"]. *)
Variable question_answering :
  string -> string -> external (option (option string)).

(** [datetime.fromisoformat]. *)
Variable fromisoformat : string -> option datetime.

(** [classify_genre] (lines 40-55). *)
Definition classify_genre (self : PostClassifier) : result string :=
  match call (zero_shot_classification (post_text self) candidate_labels) with
  | Raise e => Raise e
  | Ok [] => Raise (IndexError "list index out of range")
  | Ok (choice :: _) => Ok choice
  end.

Definition answer_of (r : option (option string)) : string :=
  match r with
  | Some (Some a) => a
  | _ => ""
  end.

(** [extract_author] (lines 58-65). *)
Definition extract_author (self : PostClassifier) : result string :=
  match call (question_answering "Who is the author?" (post_text self)) with
  | Raise e => Raise e
  | Ok r => Ok (answer_of r)
  end.

(** [extract_book_title] (lines 67-74). *)
Definition extract_book_title (self : PostClassifier) : result string :=
  match call (question_answering "What is the book title?" (post_text self))
  with
  | Raise e => Raise e
  | Ok r => Ok (answer_of r)
  end.

(** [extract_entities] (lines 76-99): the pair of the ["authors"] and
    ["book_titles"] lists. *)
Definition extract_entities (self : PostClassifier)
  : result (list (option string) * list (option string)) :=
  match extract_author self with
  | Raise e => Raise e
  | Ok author =>
      match extract_book_title self with
      | Raise e => Raise e
      | Ok book_title =>
          Ok ([clean_author author], [clean_book_title author book_title])
      end
  end.

(** Lines 229-234, one turn of the inner loop. *)
Definition save_entity (classifier : PostClassifier) (genre : string)
    (author book_title : option string) : M unit :=
  match book_title with
  | None | Some EmptyString => save_skeet_to_db classifier None
  | Some t =>
      book <- save_book_to_db classifier t author genre ;;
      save_skeet_to_db classifier (Some book)
  end.

(** Lines 228-234. *)
Fixpoint save_entities (classifier : PostClassifier) (genre : string)
    (pairs : list (option string * option string)) : M unit :=
  match pairs with
  | [] => ret tt
  | (author, book_title) :: rest =>
      save_entity classifier genre author book_title ;;;
      save_entities classifier genre rest
  end.

(** Lines 211-218. *)
Definition classifier_of (post : Raw.t) (ts : datetime) : PostClassifier :=
  {| post_text := Raw.text post;
     handle := get (Raw.handle post) "unknown";
     display_name := get (Raw.display_name post) "Unknown";
     like_count := get (Raw.like_count post) 0%Z;
     timestamp := ts;
     uri := get (Raw.uri post) "unknown" |}.

(** Lines 211-234, the body of the loop over [raw_posts]. *)
Definition process_post (post : Raw.t) : M Annotated :=
  match fromisoformat (Raw.timestamp post) with
  | None =>
      raise (ValueError
               ("Invalid isoformat string: '" ++ Raw.timestamp post ++ "'")%string)
  | Some ts =>
      let classifier := classifier_of post ts in
      genre <- lift (classify_genre classifier) ;;
      save_genre_to_db classifier genre ;;;
      entities <- lift (extract_entities classifier) ;;
      save_entities classifier genre
                    (combine (fst entities) (snd entities)) ;;;
      ret {| raw := post; predicted_genre := genre;
             authors := fst entities; book_titles := snd entities |}
  end.

(** [classify_and_save_posts] (lines 204-236) on the posts it fetched. *)
Fixpoint classify_and_save_posts (raw_posts : list Raw.t)
  : M (list Annotated) :=
  match raw_posts with
  | [] => ret []
  | post :: rest =>
      a <- process_post post ;;
      r <- classify_and_save_posts rest ;;
      ret (a :: r)
  end.

End Pipeline.

(** ** The cleaning rules as the specification words them *)






Definition starts_blank (s : string) : bool :=
  match s with
  | EmptyString => false
  | String c _ => PyStr.isspace c
  end.




(** ** Observations of the store *)

(** The store after a computation, and what the computation gave. *)
Definition exec {A} (m : M A) (db : DB) : DB := fst (m db).
Definition outcome {A} (m : M A) (db : DB) : result A := snd (m db).

Definition genres_named (genre_name : string) (db : DB) : list Genre.t :=
  filter (fun g => String.eqb (Genre.name g) genre_name) (genres db).

Definition books_keyed (book_title author : string) (db : DB) : list Book.t :=
  filter (fun b => String.eqb (Book.title b) book_title
                   && String.eqb (Book.author b) author) (books db).

Definition skeets_keyed (user_id post_id : Z) (db : DB) : list SavedSkeet.t :=
  filter (fun s => Z.eqb (SavedSkeet.user_id s) user_id
                   && Z.eqb (SavedSkeet.post_id s) post_id) (saved_skeets db).

Definition classified_keyed (post_id genre_id : Z) (db : DB)
  : list ClassifiedPost.t :=
  filter (fun cp => Z.eqb (ClassifiedPost.post_id cp) post_id
                    && Z.eqb (ClassifiedPost.genre_id cp) genre_id)
         (classified_posts db).

(** The key of the Post that [self] stands for: the one it has in the
    store, or the one it is given when the post block adds it. *)
Definition post_key (self : PostClassifier) (db : DB) : Z :=
  match outcome (post_of self) db with
  | Ok post => Post.id post
  | Raise _ => 0%Z
  end.

(** The states the persistence operations lead to from the empty store. *)
Inductive reachable : DB -> Prop :=
| reach_empty : reachable empty_db
| reach_genre self genre_name db :
    reachable db -> reachable (exec (save_genre_to_db self genre_name) db)
| reach_book self book_title author genre_name db :
    reachable db ->
    reachable (exec (save_book_to_db self book_title author genre_name) db)
| reach_skeet self book db :
    reachable db -> reachable (exec (save_skeet_to_db self book) db).

(** Every ClassifiedPost row refers to a stored Post and a stored Genre, and
    no (post, genre) pair has two rows. *)
Definition classified_ok (db : DB) : Prop :=
  (forall cp, In cp (classified_posts db) ->
     In (ClassifiedPost.post_id cp) (map Post.id (posts db))
     /\ In (ClassifiedPost.genre_id cp) (map Genre.id (genres db)))
  /\ (forall post_id genre_id,
        length (classified_keyed post_id genre_id db) <= 1).

(** No (user, post) pair has two SavedSkeet rows. *)
Definition skeets_unique (db : DB) : Prop :=
  forall user_id post_id, length (skeets_keyed user_id post_id db) <= 1.

(** ** Stubs of the capabilities, and readings the code departs from *)

(** The question-answering stub that answers the author question with
    [author] and any other question with [book_title]. *)
Definition qa_stub (author book_title : string)
  : string -> string -> external (option (option string)) :=
  fun question _ =>
    if String.eqb question "Who is the author?"
    then Returned (Some (Some author))
    else Returned (Some (Some book_title)).

Definition some_classifier (text : string) : PostClassifier :=
  {| post_text := text; handle := "h"; display_name := "H";
     like_count := 5%Z; timestamp := 0%Z; uri := "at://1" |}.

Definition post_stored (text : string) (db : DB) : bool :=
  match select_post text db with
  | Some _ => true
  | None => false
  end.

(** The persisted step as it would be if it branched on a null title
    only. *)
Definition save_entity_on_null (classifier : PostClassifier) (genre : string)
    (author book_title : option string) : M unit :=
  match book_title with
  | None => save_skeet_to_db classifier None
  | Some t =>
      book <- save_book_to_db classifier t author genre ;;
      save_skeet_to_db classifier (Some book)
  end.

Definition empty_title_error : exn := ValueError "Book title cannot be empty!".

(** A result that is not the empty-title error of [save_book_to_db]. *)
Definition spared {A} (r : result A) : Prop := r <> Raise empty_title_error.

(** Stubs of the three capabilities: the classifier fails on the text
    ["second"] and answers "fantasy" otherwise; timestamps always parse. *)
Definition zs_stub : string -> list string -> external (list string) :=
  fun text _ =>
    if String.eqb text "second" then Failed "503"
    else Returned ["fantasy"; "romance"].

Definition iso_stub : string -> option datetime := fun _ => Some 0%Z.

Definition raw_post (text : string) : Raw.t :=
  {| Raw.text := text; Raw.handle := Some "h"; Raw.display_name := Some "H";
     Raw.like_count := Some 5%Z; Raw.timestamp := "2024-01-01T00:00:00";
     Raw.uri := Some "at://1" |}.

(** ** Further readings of the string primitives *)


(** ** Row writes, and invariants of the store *)

Definition add_post (db : DB) (post : Post.t) : DB :=
  {| posts := posts db ++ [post]; genres := genres db; books := books db;
     classified_posts := classified_posts db;
     saved_skeets := saved_skeets db |}.

Definition add_genre (db : DB) (genre : Genre.t) : DB :=
  {| posts := posts db; genres := genres db ++ [genre]; books := books db;
     classified_posts := classified_posts db;
     saved_skeets := saved_skeets db |}.

Definition add_book (db : DB) (book : Book.t) : DB :=
  {| posts := posts db; genres := genres db; books := books db ++ [book];
     classified_posts := classified_posts db;
     saved_skeets := saved_skeets db |}.

Definition add_classified_post (db : DB) (cp : ClassifiedPost.t) : DB :=
  {| posts := posts db; genres := genres db; books := books db;
     classified_posts := classified_posts db ++ [cp];
     saved_skeets := saved_skeets db |}.

Definition add_saved_skeet (db : DB) (s : SavedSkeet.t) : DB :=
  {| posts := posts db; genres := genres db; books := books db;
     classified_posts := classified_posts db;
     saved_skeets := saved_skeets db ++ [s] |}.

Definition backfill (db : DB) (skeet_id book_id : Z) : DB :=
  {| posts := posts db; genres := genres db; books := books db;
     classified_posts := classified_posts db;
     saved_skeets := map (set_book_id skeet_id book_id) (saved_skeets db) |}.

(** The six writes of the persistence operations, each with the lookup that
    guards it. *)
Inductive write : DB -> DB -> Prop :=
| write_post db post :
    select_post (Post.text post) db = None ->
    Post.id post = next_id (map Post.id (posts db)) ->
    write db (add_post db post)
| write_genre db genre :
    select_genre (Genre.name genre) db = None ->
    Genre.id genre = next_id (map Genre.id (genres db)) ->
    write db (add_genre db genre)
| write_classified db cp :
    select_classified (ClassifiedPost.post_id cp)
                      (ClassifiedPost.genre_id cp) db = None ->
    In (ClassifiedPost.post_id cp) (map Post.id (posts db)) ->
    In (ClassifiedPost.genre_id cp) (map Genre.id (genres db)) ->
    write db (add_classified_post db cp)
| write_book db book :
    select_book (Book.title book) (Some (Book.author book)) db = None ->
    Book.id book = next_id (map Book.id (books db)) ->
    In (Book.genre_id book) (map Genre.id (genres db)) ->
    write db (add_book db book)
| write_saved_skeet db s :
    select_saved_skeet (SavedSkeet.post_id s) db = None ->
    SavedSkeet.user_id s = 1%Z ->
    SavedSkeet.id s = next_id (map SavedSkeet.id (saved_skeets db)) ->
    In (SavedSkeet.post_id s) (map Post.id (posts db)) ->
    (forall book_id, SavedSkeet.book_id s = Some book_id ->
                     In book_id (map Book.id (books db))) ->
    write db (add_saved_skeet db s)
| write_backfill db s book_id :
    select_saved_skeet (SavedSkeet.post_id s) db = Some s ->
    SavedSkeet.book_id s = None ->
    In book_id (map Book.id (books db)) ->
    write db (backfill db (SavedSkeet.id s) book_id).

Inductive writes : DB -> DB -> Prop :=
| writes_none db : writes db db
| writes_more db db1 db2 : write db db1 -> writes db1 db2 -> writes db db2.

(** Primary keys and natural keys identify one row each. *)
Definition book_key (b : Book.t) : string * string :=
  (Book.title b, Book.author b).
Definition skeet_key (s : SavedSkeet.t) : Z * Z :=
  (SavedSkeet.user_id s, SavedSkeet.post_id s).
Definition classified_key (cp : ClassifiedPost.t) : Z * Z :=
  (ClassifiedPost.post_id cp, ClassifiedPost.genre_id cp).

Record keys_ok (db : DB) : Prop := {
  post_ids : NoDup (map Post.id (posts db));
  genre_ids : NoDup (map Genre.id (genres db));
  book_ids : NoDup (map Book.id (books db));
  skeet_ids : NoDup (map SavedSkeet.id (saved_skeets db));
  post_texts : NoDup (map Post.text (posts db));
  genre_names : NoDup (map Genre.name (genres db));
  book_keys : NoDup (map book_key (books db));
  skeet_keys : NoDup (map skeet_key (saved_skeets db));
  classified_keys : NoDup (map classified_key (classified_posts db)) }.

(** Every foreign key that is set refers to a stored row. *)
Record refs_ok (db : DB) : Prop := {
  book_genre :
    forall b, In b (books db) ->
              In (Book.genre_id b) (map Genre.id (genres db));
  classified_post :
    forall cp, In cp (classified_posts db) ->
               In (ClassifiedPost.post_id cp) (map Post.id (posts db));
  classified_genre :
    forall cp, In cp (classified_posts db) ->
               In (ClassifiedPost.genre_id cp) (map Genre.id (genres db));
  skeet_post :
    forall s, In s (saved_skeets db) ->
              In (SavedSkeet.post_id s) (map Post.id (posts db));
  skeet_book :
    forall s book_id, In s (saved_skeets db) ->
                      SavedSkeet.book_id s = Some book_id ->
                      In book_id (map Book.id (books db)) }.

(** [db'] has the rows of [db] and maybe more: the Post, Genre, Book and
    ClassifiedPost rows of [db] come first and unchanged in [db'], and the
    SavedSkeet rows of [db] come first in [db'], each unchanged or with a
    book where it had none. *)
Definition filled (s s' : SavedSkeet.t) : Prop :=
  SavedSkeet.id s' = SavedSkeet.id s
  /\ SavedSkeet.post_id s' = SavedSkeet.post_id s
  /\ SavedSkeet.user_id s' = SavedSkeet.user_id s
  /\ (SavedSkeet.book_id s' = SavedSkeet.book_id s
      \/ SavedSkeet.book_id s = None).

Record grows (db db' : DB) : Prop := {
  posts_grow : exists more, posts db' = (posts db ++ more)%list;
  genres_grow : exists more, genres db' = (genres db ++ more)%list;
  books_grow : exists more, books db' = (books db ++ more)%list;
  classified_grow :
    exists more, classified_posts db' = (classified_posts db ++ more)%list;
  skeets_grow :
    exists old more,
      saved_skeets db' = (old ++ more)%list
      /\ Forall2 filled (saved_skeets db) old }.

(** ** The routes of src/post.py and src/book.py

    A route returns its value, or fails with an [HTTPException] it raises
    itself or with an exception that a call it makes lets through. *)

Inductive failure :=
| Uncaught (e : exn)
| HTTPException (status_code : Z) (detail : string).

Inductive reply (A : Type) :=
| Reply (a : A)
| Fail (f : failure).
Arguments Reply {A} a.
Arguments Fail {A} f.

(** The body of a [POST /posts/] request: the six fields of a Post. *)
Module PostIn.
Record t := {
  handle : string; display_name : string; text : string;
  timestamp : datetime; like_count : Z; uri : string }.
End PostIn.

(** Lines 87-89 of post.py: the first Post with this uri.  [PostModel] and
    [BookModel] (app/models, not among the sources) are taken to be the
    Post and Book tables of database.py, the tables that the joins of these
    routes with SavedSkeet name. *)
Definition select_post_by_uri (uri : string) (db : DB) : option Post.t :=
  find (fun p => String.eqb (Post.uri p) uri) (posts db).

(** Lines 108-112 and 176-180 of post.py: the first SavedSkeet of this post
    and this user. *)
Definition select_saved (post_id user_id : Z) (db : DB) : option SavedSkeet.t :=
  find (fun s => Z.eqb (SavedSkeet.post_id s) post_id
                 && Z.eqb (SavedSkeet.user_id s) user_id)
       (saved_skeets db).

(** [create_post] (post.py, lines 80-123). *)
Definition create_post (post : PostIn.t) (user_id : Z) (db : DB)
  : DB * reply Post.t :=
  let (db1, db_post) :=
    match select_post_by_uri (PostIn.uri post) db with
    | Some existing_post => (db, existing_post)
    | None =>
        let db_post :=
          {| Post.id := next_id (map Post.id (posts db));
             Post.handle := PostIn.handle post;
             Post.display_name := PostIn.display_name post;
             Post.text := PostIn.text post;
             Post.timestamp := PostIn.timestamp post;
             Post.like_count := PostIn.like_count post;
             Post.uri := PostIn.uri post |} in
        (add_post db db_post, db_post)
    end in
  match select_saved (Post.id db_post) user_id db1 with
  | Some _ => (db1, Reply db_post)
  | None =>
      (* no row of this user and post: [unique_saved_skeet] holds *)
      let saved_skeet :=
        {| SavedSkeet.id := next_id (map SavedSkeet.id (saved_skeets db1));
           SavedSkeet.post_id := Post.id db_post;
           SavedSkeet.user_id := user_id;
           SavedSkeet.book_id := None |} in
      (add_saved_skeet db1 saved_skeet, Reply db_post)
  end.

(** [db.delete(result)]: the row with this primary key goes. *)
Definition delete_saved_skeet (db : DB) (skeet_id : Z) : DB :=
  {| posts := posts db; genres := genres db; books := books db;
     classified_posts := classified_posts db;
     saved_skeets :=
       filter (fun s => negb (Z.eqb (SavedSkeet.id s) skeet_id))
              (saved_skeets db) |}.

(** [unsave_post] (post.py, lines 168-190). *)
Definition unsave_post (post_id user_id : Z) (db : DB) : DB * reply string :=
  match select_saved post_id user_id db with
  | None =>
      (db, Fail (HTTPException 404 "Saved skeet not found for this user"))
  | Some result =>
      (delete_saved_skeet db (SavedSkeet.id result),
       Reply "Post unsaved successfully")
  end.

(** [get_post] (post.py, lines 140-154): the first Post of this id joined
    with a SavedSkeet of this user. *)
Definition get_post (post_id user_id : Z) (db : DB) : reply Post.t :=
  match
    find (fun p =>
            Z.eqb (Post.id p) post_id
            && existsb (fun s => Z.eqb (SavedSkeet.post_id s) (Post.id p)
                                 && Z.eqb (SavedSkeet.user_id s) user_id)
                       (saved_skeets db))
         (posts db)
  with
  | Some post => Reply post
  | None => Fail (HTTPException 404 "Post not found.")
  end.

(** What [fetch_classified_posts] returns: one genre with its posts, or
    every genre with its posts. *)
Inductive classified :=
| OneGenre (genre : string) (posts : list Raw.t)
| AllGenres (groups : list (string * list Raw.t)).

(** [d.setdefault(k, []).append(post)] on a dict in insertion order. *)
Fixpoint setdefault_append (d : list (string * list Raw.t)) (k : string)
    (post : Raw.t) : list (string * list Raw.t) :=
  match d with
  | [] => [(k, [post])]
  | (k', ps) :: d' =>
      if String.eqb k' k then (k', (ps ++ [post])%list) :: d'
      else (k', ps) :: setdefault_append d' k post
  end.

(** [d[k]], when [k in d]. *)
Fixpoint lookup (d : list (string * list Raw.t)) (k : string)
  : option (list Raw.t) :=
  match d with
  | [] => None
  | (k', ps) :: d' => if String.eqb k' k then Some ps else lookup d' k
  end.

(** An f-string with one field between two texts. *)
Definition fmt (before field after : string) : string :=
  (before ++ field ++ after)%string.

Section Routes.

Variable zero_shot_classification :
  string -> list string -> external (list string).
Variable question_answering :
  string -> string -> external (option (option string)).
Variable fromisoformat : string -> option datetime.

(** Lines 40-48 of post.py and 172-180 of book.py: the classifier of a
    fetched post and its genre. *)
Definition genre_of_post (post : Raw.t) : result (PostClassifier * string) :=
  match fromisoformat (Raw.timestamp post) with
  | None =>
      Raise (ValueError
               ("Invalid isoformat string: '" ++ Raw.timestamp post ++ "'")%string)
  | Some ts =>
      let classifier := classifier_of post ts in
      match classify_genre zero_shot_classification classifier with
      | Raise e => Raise e
      | Ok genre_name => Ok (classifier, genre_name)
      end
  end.

(** Lines 37-51 of post.py. *)
Fixpoint classify_posts (raw_posts : list Raw.t)
    (classified_posts : list (string * list Raw.t))
  : result (list (string * list Raw.t)) :=
  match raw_posts with
  | [] => Ok classified_posts
  | post :: rest =>
      match genre_of_post post with
      | Raise e => Raise e
      | Ok (_, genre_name) =>
          classify_posts rest
            (setdefault_append classified_posts genre_name post)
      end
  end.

(** [fetch_classified_posts] (post.py, lines 27-59) on the posts it
    fetched. *)
Definition fetch_classified_posts (genre : option string)
    (raw_posts : list Raw.t) : reply classified :=
  match classify_posts raw_posts [] with
  | Raise e => Fail (Uncaught e)
  | Ok classified_posts =>
      match genre with
      | Some (String c g) =>
          match lookup classified_posts (String c g) with
          | None =>
              Fail (HTTPException 404
                      (fmt "Genre '" (String c g) "' not found"))
          | Some posts => Reply (OneGenre (String c g) posts)
          end
      | _ => Reply (AllGenres classified_posts)
      end
  end.

(** A Book that [fetch_books_by_genre] builds and does not store: no id, no
    genre, maybe no author. *)
Record FoundBook := { found_title : string; found_author : option string }.

(** [xs[0]] *)
Definition first_of {A} (xs : list A) : result A :=
  match xs with
  | [] => Raise (IndexError "list index out of range")
  | x :: _ => Ok x
  end.

(** Lines 171-187 of book.py. *)
Fixpoint collect_books (genre : string) (raw_posts : list Raw.t)
    (books : list FoundBook) : result (list FoundBook) :=
  match raw_posts with
  | [] => Ok books
  | post :: rest =>
      match genre_of_post post with
      | Raise e => Raise e
      | Ok (classifier, predicted_genre) =>
          if String.eqb (PyStr.lower predicted_genre) (PyStr.lower genre)
          then
            match extract_entities question_answering classifier with
            | Raise e => Raise e
            | Ok entities =>
                match first_of (snd entities), first_of (fst entities) with
                | Ok title, Ok author =>
                    match title with
                    | Some (String c t) =>
                        collect_books genre rest
                          (books ++
                           [{| found_title := String c t;
                               found_author :=
                                 match author with
                                 | Some (String d a) => Some (String d a)
                                 | _ => None
                                 end |}])
                    | _ => collect_books genre rest books
                    end
                | Raise e, _ => Raise e
                | _, Raise e => Raise e
                end
            end
          else collect_books genre rest books
      end
  end.

(** [fetch_books_by_genre] (book.py, lines 154-191) on the posts it
    fetched. *)
Definition fetch_books_by_genre (genre : string) (raw_posts : list Raw.t)
  : reply (list FoundBook) :=
  match collect_books genre raw_posts [] with
  | Raise e => Fail (Uncaught e)
  | Ok [] =>
      Fail (HTTPException 404 (fmt "No books found for genre '" genre "'"))
  | Ok books => Reply books
  end.

End Routes.

(** [create_book] (book.py, lines 37-78). *)

(** Lines 48-52 of book.py: the first SavedSkeet of this book and user. *)
Definition select_saved_book (book_id user_id : Z) (db : DB)
  : option SavedSkeet.t :=
  find (fun s => match SavedSkeet.book_id s with
                 | Some b => Z.eqb b book_id
                 | None => false
                 end
                 && Z.eqb (SavedSkeet.user_id s) user_id)
       (saved_skeets db).

(** The commit of a new SavedSkeet row: [unique_saved_skeet] (database.py,
    line 66) refuses a second row of the same user and post.  Foreign keys
    are not checked, as in SQLite by default, so that post 0 is accepted. *)
Definition commit_saved_skeet (post_id user_id : Z) (book_id : option Z)
    (db : DB) : DB * result unit :=
  if existsb (fun s => Z.eqb (SavedSkeet.user_id s) user_id
                       && Z.eqb (SavedSkeet.post_id s) post_id)
             (saved_skeets db)
  then (db, Raise (IntegrityError
                     "UNIQUE constraint failed: savedskeet.user_id, savedskeet.post_id"))
  else (add_saved_skeet db
          {| SavedSkeet.id := next_id (map SavedSkeet.id (saved_skeets db));
             SavedSkeet.post_id := post_id;
             SavedSkeet.user_id := user_id;
             SavedSkeet.book_id := book_id |}, Ok tt).

Definition create_book (title author : string) (user_id : Z) (db : DB)
  : DB * reply Book.t :=
  match select_book title (Some author) db with
  | Some existing_book =>
      match select_saved_book (Book.id existing_book) user_id db with
      | Some _ => (db, Reply existing_book)
      | None =>
          match commit_saved_skeet 0 user_id (Some (Book.id existing_book)) db
          with
          | (db1, Ok _) => (db1, Reply existing_book)
          | (db1, Raise e) => (db1, Fail (Uncaught e))
          end
      end
  | None =>
      let db_book :=
        {| Book.id := next_id (map Book.id (books db));
           Book.title := title; Book.author := author;
           Book.genre_id := 1 |} in
      match commit_saved_skeet 0 user_id (Some (Book.id db_book))
                               (add_book db db_book)
      with
      | (db1, Ok _) => (db1, Reply db_book)
      | (db1, Raise e) => (db1, Fail (Uncaught e))
      end
  end.

(** A fetched post that the classifier puts in [genre]. *)
Definition classified_as
    (zs : string -> list string -> external (list string))
    (iso : string -> option datetime) (genre : string) (post : Raw.t) : bool :=
  match genre_of_post zs iso post with
  | Ok (_, genre_name) => String.eqb genre_name genre
  | Raise _ => false
  end.

(** The posts of a group, when there are some. *)
Definition group_of (posts : list Raw.t) : option (list Raw.t) :=
  match posts with
  | [] => None
  | _ => Some posts
  end.

(** The dict groups the posts seen so far by their genre. *)
Definition groups
    (zs : string -> list string -> external (list string))
    (iso : string -> option datetime)
    (d : list (string * list Raw.t)) (seen : list Raw.t) : Prop :=
  NoDup (map fst d)
  /\ forall g, lookup d g = group_of (filter (classified_as zs iso g) seen).


(** A fetched post whose genre is [genre], whatever the case. *)
Definition matches
    (zs : string -> list string -> external (list string))
    (iso : string -> option datetime) (genre : string) (post : Raw.t) : bool :=
  match genre_of_post zs iso post with
  | Ok (_, predicted_genre) =>
      String.eqb (PyStr.lower predicted_genre) (PyStr.lower genre)
  | Raise _ => false
  end.

(** A post of this text, genre, cleaned author and cleaned title has all
    its rows: its Post, its Genre, their ClassifiedPost, a SavedSkeet of
    user 1 and, when it has a title, its Book and a book in the
    SavedSkeet. *)
Definition settled (text genre : string) (author book_title : option string)
    (db : DB) : Prop :=
  exists post g cp s,
    select_post text db = Some post
    /\ select_genre genre db = Some g
    /\ select_classified (Post.id post) (Genre.id g) db = Some cp
    /\ select_saved_skeet (Post.id post) db = Some s
    /\ match book_title with
       | None | Some EmptyString => True
       | Some t =>
           (exists book, select_book t author db = Some book)
           /\ SavedSkeet.book_id s <> None
       end.

(** What the loop has written into a fetched post, and that the post is
    settled. *)
Definition processed
    (zs : string -> list string -> external (list string))
    (qa : string -> string -> external (option (option string)))
    (iso : string -> option datetime)
    (db : DB) (post : Raw.t) (a : Annotated) : Prop :=
  exists ts genre author book_title,
    iso (Raw.timestamp post) = Some ts
    /\ classify_genre zs (classifier_of post ts) = Ok genre
    /\ extract_entities qa (classifier_of post ts)
       = Ok ([author], [book_title])
    /\ a = {| raw := post; predicted_genre := genre;
              authors := [author]; book_titles := [book_title] |}
    /\ settled (Raw.text post) genre author book_title db.

(** ** Properties of the string primitives *)

Section Chars.

Local Ltac by_cases c :=
  destruct c as [[] [] [] [] [] [] [] []]; reflexivity.

Lemma isspace_lower_char c : PyStr.isspace (PyStr.lower_char c) = PyStr.isspace c.
Proof. by_cases c. Qed.






End Chars.

Section Lowering.








End Lowering.

Section Stripping.






End Stripping.

Section Replacing.




End Replacing.

Section Splitting.










End Splitting.

(** ** The cleaning rules meet their specification *)

Section Cleaning.









End Cleaning.






(** ** Properties of the persistence operations *)

Section Tables.

Context {A : Type}.

Lemma find_snoc (f : A -> bool) l x :
  find f (l ++ [x])
  = match find f l with
    | Some y => Some y
    | None => if f x then Some x else None
    end.
Proof.
  induction l as [|y l IH]; simpl; [reflexivity|].
  now destruct (f y).
Qed.

Lemma find_none_filter (f : A -> bool) l : find f l = None -> filter f l = [].
Proof.
  induction l as [|y l IH]; simpl; [reflexivity|].
  destruct (f y); [discriminate|exact IH].
Qed.

Lemma find_some_filter (f : A -> bool) l y :
  find f l = Some y -> exists r, filter f l = y :: r.
Proof.
  induction l as [|z l IH]; simpl; [discriminate|].
  destruct (f z); [intros [= ->]; eauto|exact IH].
Qed.

Lemma filter_snoc (f : A -> bool) l x :
  filter f (l ++ [x]) = (filter f l ++ if f x then [x] else [])%list.
Proof. rewrite filter_app. simpl. now destruct (f x). Qed.

Lemma next_id_fresh ids x : In x ids -> (x < next_id ids)%Z.
Proof.
  unfold next_id. induction ids as [|y ids IH]; cbn [fold_right In]; [tauto|].
  intros [->|H]; [lia|]. specialize (IH H). lia.
Qed.

End Tables.

Section Blocks.

(** The post block: it gives the first Post with the text of [self], and
    a second run finds the same Post and writes nothing. *)
Lemma post_of_spec self db :
  exists post db1,
    post_of self db = (db1, Ok post)
    /\ select_post (post_text self) db1 = Some post
    /\ post_of self db1 = (db1, Ok post)
    /\ In post (posts db1)
    /\ (exists more, posts db1 = (posts db ++ more)%list)
    /\ genres db1 = genres db /\ books db1 = books db
    /\ classified_posts db1 = classified_posts db
    /\ saved_skeets db1 = saved_skeets db.
Proof.
  unfold post_of. destruct (select_post (post_text self) db) as [p|] eqn:E.
  - exists p, db. rewrite E. repeat split; try reflexivity.
    + apply find_some in E. tauto.
    + exists []. now rewrite app_nil_r.
  - eexists; eexists. split; [reflexivity|].
    assert (Hsel : forall p, select_post (Post.text p)
              {| posts := posts db ++ [p]; genres := genres db;
                 books := books db;
                 classified_posts := classified_posts db;
                 saved_skeets := saved_skeets db |} = Some p
              \/ select_post (Post.text p) db <> None).
    { intros p. unfold select_post; cbn [posts]. rewrite find_snoc.
      destruct (find _ (posts db)); [right; discriminate|].
      left. now rewrite String.eqb_refl. }
    destruct (Hsel {| Post.id := next_id (map Post.id (posts db));
                      Post.handle := handle self;
                      Post.display_name := display_name self;
                      Post.text := post_text self;
                      Post.timestamp := timestamp self;
                      Post.like_count := like_count self;
                      Post.uri := uri self |}) as [H|H];
      cbn [Post.text] in H; [|congruence].
    rewrite H. repeat split; try reflexivity.
    + cbn [posts]. apply in_or_app. right. now left.
    + now eexists.
Qed.

(** The genre block, likewise. *)
Lemma genre_of_spec genre_name db :
  exists genre db1,
    genre_of genre_name db = (db1, Ok genre)
    /\ select_genre genre_name db1 = Some genre
    /\ genre_of genre_name db1 = (db1, Ok genre)
    /\ In genre (genres db1)
    /\ Genre.name genre = genre_name
    /\ (exists more, genres db1 = (genres db ++ more)%list)
    /\ length (genres_named genre_name db1)
       = Nat.max 1 (length (genres_named genre_name db))
    /\ posts db1 = posts db /\ books db1 = books db
    /\ classified_posts db1 = classified_posts db
    /\ saved_skeets db1 = saved_skeets db.
Proof.
  unfold genre_of. destruct (select_genre genre_name db) as [g|] eqn:E.
  - exists g, db. rewrite E. repeat split; try reflexivity.
    + apply find_some in E. tauto.
    + apply find_some in E. now apply String.eqb_eq.
    + exists []. now rewrite app_nil_r.
    + unfold genres_named. destruct (find_some_filter _ _ _ E) as (r & ->).
      simpl. lia.
  - eexists; eexists. split; [reflexivity|].
    unfold select_genre, genres_named in *; cbn [genres Genre.name].
    rewrite find_snoc, filter_snoc, E. cbn [Genre.name].
    rewrite String.eqb_refl, (find_none_filter _ _ E).
    repeat split; try reflexivity.
    + apply in_or_app. right. now left.
    + now eexists.
Qed.

Lemma post_of_found self db post :
  select_post (post_text self) db = Some post ->
  post_of self db = (db, Ok post).
Proof. unfold post_of. now intros ->. Qed.

Lemma genre_of_found genre_name db genre :
  select_genre genre_name db = Some genre ->
  genre_of genre_name db = (db, Ok genre).
Proof. unfold genre_of. now intros ->. Qed.

Lemma select_post_posts text db db' :
  posts db' = posts db -> select_post text db' = select_post text db.
Proof. unfold select_post. now intros ->. Qed.

Lemma select_genre_genres genre_name db db' :
  genres db' = genres db ->
  select_genre genre_name db' = select_genre genre_name db.
Proof. unfold select_genre. now intros ->. Qed.

(** The association block keeps the other tables, and a second run
    writes nothing. *)
Lemma add_classified_spec post_id genre_id db :
  exists db1,
    add_classified post_id genre_id db = (db1, Ok tt)
    /\ add_classified post_id genre_id db1 = (db1, Ok tt)
    /\ posts db1 = posts db /\ genres db1 = genres db
    /\ books db1 = books db /\ saved_skeets db1 = saved_skeets db.
Proof.
  unfold add_classified.
  destruct (select_classified post_id genre_id db) eqn:Hcl.
  - exists db. now rewrite Hcl.
  - eexists. split; [reflexivity|].
    unfold select_classified in *. cbn [classified_posts].
    rewrite find_snoc, Hcl.
    cbn [ClassifiedPost.post_id ClassifiedPost.genre_id].
    now rewrite !Z.eqb_refl.
Qed.

End Blocks.

Section Books.

Lemma select_book_books t a db db' :
  books db' = books db -> select_book t a db' = select_book t a db.
Proof. unfold select_book. now intros ->. Qed.

Lemma books_keyed_books t a db db' :
  books db' = books db -> books_keyed t a db' = books_keyed t a db.
Proof. unfold books_keyed. now intros ->. Qed.

(** A Book that is stored already is returned as it is. *)
Lemma save_book_found self t a g db b :
  truthy t = true ->
  select_book t (Some a) db = Some b ->
  exists db1,
    save_book_to_db self t (Some a) g db = (db1, Ok b)
    /\ books db1 = books db /\ posts db1 = posts db
    /\ classified_posts db1 = classified_posts db
    /\ saved_skeets db1 = saved_skeets db
    /\ (exists more, genres db1 = (genres db ++ more)%list).
Proof.
  intros Ht Hb. unfold save_book_to_db, bind.
  destruct (genre_of_spec g db)
    as (genre & dbg & -> & _ & _ & _ & _ & Hg & _ & Hp & Hbk & Hc & Hs).
  rewrite Ht. cbn [negb]. rewrite (select_book_books _ _ _ _ Hbk), Hb.
  exists dbg. repeat split; assumption.
Qed.

(** With a title and an author, [save_book_to_db] returns a stored Book
    of that title and author, and touches no table but Genre and Book. *)
Lemma save_book_spec self t a g db :
  truthy t = true ->
  exists book db1,
    save_book_to_db self t (Some a) g db = (db1, Ok book)
    /\ select_book t (Some a) db1 = Some book
    /\ length (books_keyed t a db1) = Nat.max 1 (length (books_keyed t a db))
    /\ (exists more, books db1 = (books db ++ more)%list)
    /\ posts db1 = posts db
    /\ classified_posts db1 = classified_posts db
    /\ saved_skeets db1 = saved_skeets db
    /\ (exists more, genres db1 = (genres db ++ more)%list).
Proof.
  intros Ht. destruct (select_book t (Some a) db) as [b|] eqn:Hb.
  - destruct (save_book_found self t a g db b Ht Hb)
      as (db1 & E & Hbk & Hp & Hc & Hs & Hg).
    exists b, db1. rewrite E, (select_book_books _ _ _ _ Hbk), Hb.
    rewrite (books_keyed_books _ _ _ _ Hbk).
    repeat split; try assumption.
    + unfold select_book, books_keyed in *.
      destruct (find_some_filter _ _ _ Hb) as (r & ->). simpl. lia.
    + exists []. now rewrite app_nil_r.
  - unfold save_book_to_db, bind.
    destruct (genre_of_spec g db)
      as (genre & dbg & -> & _ & _ & _ & _ & Hg & _ & Hp & Hbk & Hc & Hs).
    rewrite Ht. cbn [negb]. rewrite (select_book_books _ _ _ _ Hbk), Hb.
    eexists; eexists. split; [reflexivity|].
    unfold select_book, books_keyed in *. cbn [books]. rewrite Hbk.
    rewrite find_snoc, filter_snoc, Hb, (find_none_filter _ _ Hb).
    cbn [Book.title Book.author]. rewrite !String.eqb_refl.
    repeat split; try assumption; try reflexivity. now eexists.
Qed.

End Books.

(** C5. The lookup-or-create operations are idempotent.  For every genre
    name, running the genre block of [save_genre_to_db] and
    [save_book_to_db] twice gives the same Genre row both times, the second
    run adds no row, and a second [save_genre_to_db] leaves the store as the
    first left it.  For every non-empty title, author and genres, a second
    [save_book_to_db] with the same title and author returns the very Book
    the first returned (same id, same genre_id, whatever genre the second
    call names) and adds no Book row; when at most one row had that title
    and author before, exactly one has them after. *)
Theorem ensure_genre_and_book_idempotent :
  forall self self' genre_name book_title author g g' db,
    truthy book_title = true ->
    length (books_keyed book_title author db) <= 1 ->
    (exists genre,
       let db1 := exec (genre_of genre_name) db in
       outcome (genre_of genre_name) db = Ok genre
       /\ outcome (genre_of genre_name) db1 = Ok genre
       /\ exec (genre_of genre_name) db1 = db1
       /\ length (genres_named genre_name db1)
          = Nat.max 1 (length (genres_named genre_name db)))
    /\ (let db1 := exec (save_genre_to_db self genre_name) db in
        exec (save_genre_to_db self genre_name) db1 = db1
        /\ length (genres_named genre_name db1)
           = Nat.max 1 (length (genres_named genre_name db)))
    /\ (exists book,
          let db1 := exec (save_book_to_db self book_title (Some author) g) db in
          let db2 :=
            exec (save_book_to_db self' book_title (Some author) g') db1 in
          outcome (save_book_to_db self book_title (Some author) g) db = Ok book
          /\ outcome (save_book_to_db self' book_title (Some author) g') db1
             = Ok book
          /\ books db2 = books db1
          /\ length (books_keyed book_title author db2) = 1).
Proof.
  intros self self' genre_name book_title author g g' db Ht Hone.
  split; [|split].
  - destruct (genre_of_spec genre_name db)
      as (genre & db1 & E1 & _ & E2 & _ & _ & _ & Hlen & _).
    exists genre. unfold exec, outcome. rewrite E1; cbn [fst snd].
    rewrite E2; cbn [fst snd]. auto.
  - unfold save_genre_to_db, bind, exec.
    destruct (post_of_spec self db)
      as (post & dbp & -> & Hsel & _ & _ & _ & Hg & _).
    destruct (genre_of_spec genre_name dbp)
      as (genre & dbg & -> & Hselg & _ & _ & _ & _ & Hlen & Hp' & _).
    destruct (add_classified_spec (Post.id post) (Genre.id genre) dbg)
      as (dbc & -> & Ec & Hp'' & Hg'' & _).
    cbn [fst]. split.
    + rewrite (post_of_found self dbc post).
      2:{ rewrite (select_post_posts _ dbg dbc Hp'').
          now rewrite (select_post_posts _ dbp dbg Hp'). }
      rewrite (genre_of_found genre_name dbc genre).
      2:{ now rewrite (select_genre_genres _ dbg dbc Hg''). }
      now rewrite Ec.
    + unfold genres_named in *. now rewrite Hg'', Hlen, Hg.
  - destruct (save_book_spec self book_title author g db Ht)
      as (book & db1 & E1 & Hsel & Hlen & _).
    destruct (save_book_found self' book_title author g' db1 book Ht Hsel)
      as (db2 & E2 & Hbk & _).
    exists book. unfold exec, outcome. rewrite E1; cbn [fst snd].
    rewrite E2; cbn [fst snd]. repeat split; [exact Hbk|].
    rewrite (books_keyed_books _ _ _ _ Hbk), Hlen.
    unfold select_book, books_keyed in *.
    destruct (books_keyed book_title author db) eqn:?; lia.
Qed.

Section Frames.

Lemma filter_nil_find {A} (f : A -> bool) l : filter f l = [] -> find f l = None.
Proof.
  induction l as [|y l IH]; simpl; [reflexivity|].
  destruct (f y); [discriminate|exact IH].
Qed.

(** Whatever its arguments, [save_book_to_db] writes to Genre and Book
    only, and only by adding rows. *)
Lemma save_book_frame self t a g db :
  let db1 := exec (save_book_to_db self t a g) db in
  posts db1 = posts db
  /\ classified_posts db1 = classified_posts db
  /\ saved_skeets db1 = saved_skeets db
  /\ (exists more, genres db1 = (genres db ++ more)%list).
Proof.
  unfold exec, save_book_to_db, bind.
  destruct (genre_of_spec g db)
    as (genre & dbg & -> & _ & _ & _ & _ & Hg & _ & Hp & _ & Hc & Hs).
  destruct (truthy t); cbn [negb]; [|cbn; auto].
  destruct (select_book t a dbg); [cbn; auto|].
  destruct a; cbn; auto.
Qed.

(** [save_skeet_to_db] writes to Post and SavedSkeet only, and keeps the
    Post rows it finds. *)
Lemma save_skeet_frame self book db :
  let db1 := exec (save_skeet_to_db self book) db in
  genres db1 = genres db
  /\ classified_posts db1 = classified_posts db
  /\ books db1 = books db
  /\ (exists more, posts db1 = (posts db ++ more)%list).
Proof.
  unfold exec, save_skeet_to_db, bind.
  destruct (post_of_spec self db)
    as (post & dbp & -> & _ & _ & _ & Hp & Hg & Hb & Hc & _).
  destruct (select_saved_skeet (Post.id post) dbp) as [s|]; [|cbn; auto].
  destruct book, (SavedSkeet.book_id s); cbn; auto.
Qed.

Lemma classified_ok_frame db db1 :
  classified_ok db ->
  classified_posts db1 = classified_posts db ->
  (exists more, posts db1 = (posts db ++ more)%list) ->
  (exists more, genres db1 = (genres db ++ more)%list) ->
  classified_ok db1.
Proof.
  intros [Href Huniq] Hc [mp Hp] [mg Hg]. split.
  - intros cp Hin. rewrite Hc in Hin. destruct (Href cp Hin) as [H1 H2].
    rewrite Hp, Hg, !map_app. split; apply in_or_app; now left.
  - intros p g. unfold classified_keyed. rewrite Hc. apply Huniq.
Qed.

Lemma classified_ok_save_genre self genre_name db :
  classified_ok db -> classified_ok (exec (save_genre_to_db self genre_name) db).
Proof.
  intros Hok. unfold exec, save_genre_to_db, bind.
  destruct (post_of_spec self db)
    as (post & dbp & -> & _ & _ & Hpin & Hp & Hg & _ & Hc & _).
  destruct (genre_of_spec genre_name dbp)
    as (genre & dbg & -> & _ & _ & Hgin & _ & Hg' & _ & Hp' & _ & Hc' & _).
  assert (Hokg : classified_ok dbg).
  { apply (classified_ok_frame db); trivial.
    - now rewrite Hc'.
    - rewrite Hp'. exact Hp.
    - destruct Hg' as [more ->]. rewrite Hg. now eexists. }
  rewrite <- Hp' in Hpin. clear - Hokg Hpin Hgin.
  unfold add_classified.
  destruct (select_classified (Post.id post) (Genre.id genre) dbg) eqn:Hcl;
    [exact Hokg|].
  cbn [fst]. destruct Hokg as [Href Huniq]. split.
  - cbn [classified_posts posts genres]. intros cp Hin.
    apply in_app_or in Hin as [Hin|[<-|[]]]; [now apply Href|].
    cbn [ClassifiedPost.post_id ClassifiedPost.genre_id].
    split; now apply in_map.
  - intros p g. unfold classified_keyed. cbn [classified_posts].
    rewrite filter_snoc, length_app.
    cbn [ClassifiedPost.post_id ClassifiedPost.genre_id].
    destruct (Z.eqb (Post.id post) p && Z.eqb (Genre.id genre) g) eqn:E.
    + apply andb_true_iff in E as [E1 E2].
      apply Z.eqb_eq in E1, E2. subst p g.
      unfold select_classified in Hcl.
      rewrite (find_none_filter _ _ Hcl). simpl. lia.
    + specialize (Huniq p g). unfold classified_keyed in Huniq.
      simpl. lia.
Qed.

End Frames.

(** C8. Every state reached from the empty store through
    [save_genre_to_db] (interleaved at will with the two other persistence
    operations) satisfies: each ClassifiedPost row refers to a Post and a
    Genre that are stored, and no (post_id, genre_id) pair has more than one
    ClassifiedPost row. *)
Theorem reachable_classified_ok : forall db, reachable db -> classified_ok db.
Proof.
  induction 1 as [|self g db _ IH|self t a g db _ IH|self book db _ IH].
  - split; [intros cp []|intros p g; simpl; lia].
  - now apply classified_ok_save_genre.
  - destruct (save_book_frame self t a g db) as (Hp & Hc & _ & Hg).
    apply (classified_ok_frame db); trivial. exists []. now rewrite app_nil_r.
  - destruct (save_skeet_frame self book db) as (Hg & Hc & _ & Hp).
    apply (classified_ok_frame db); trivial. exists []. now rewrite app_nil_r.
Qed.

(** C9. [save_book_to_db] checks the title after it has stored the genre:
    for an empty title and a genre name that no Genre row has, the call
    raises "Book title cannot be empty!" and yet has added and committed a
    Genre row of that name, so the store is not as it was. *)
Theorem save_book_empty_title_keeps_genre :
  forall self author genre_name db,
    genres_named genre_name db = [] ->
    let db1 := exec (save_book_to_db self "" author genre_name) db in
    outcome (save_book_to_db self "" author genre_name) db
    = Raise (ValueError "Book title cannot be empty!")
    /\ genres db1
       = (genres db ++ [{| Genre.id := next_id (map Genre.id (genres db));
                           Genre.name := genre_name;
                           Genre.description := None |}])%list
    /\ books db1 = books db
    /\ db1 <> db.
Proof.
  intros self author genre_name db Hnone.
  unfold exec, outcome, save_book_to_db, bind, genre_of, select_genre.
  unfold genres_named in Hnone. rewrite (filter_nil_find _ _ Hnone).
  cbn. repeat split.
  intros E. apply (f_equal genres) in E. cbn in E.
  apply (f_equal (@length _)) in E. rewrite length_app in E. simpl in E. lia.
Qed.

Section Skeets.

Lemma select_saved_skeet_keyed post_id db :
  select_saved_skeet post_id db
  = hd_error (skeets_keyed 1 post_id db).
Proof.
  unfold select_saved_skeet, skeets_keyed.
  induction (saved_skeets db) as [|s l IH]; [reflexivity|].
  cbn [find filter]. rewrite (andb_comm (Z.eqb (SavedSkeet.user_id s) 1)).
  destruct (_ && _); [reflexivity|exact IH].
Qed.

Lemma skeets_keyed_skeets u p db db' :
  saved_skeets db' = saved_skeets db ->
  skeets_keyed u p db' = skeets_keyed u p db.
Proof. unfold skeets_keyed. now intros ->. Qed.

(** Setting the book of a row keeps the key of every row. *)
Lemma filter_key_set_book_id u p sid bid l :
  filter (fun s => Z.eqb (SavedSkeet.user_id s) u
                   && Z.eqb (SavedSkeet.post_id s) p)
         (map (set_book_id sid bid) l)
  = map (set_book_id sid bid)
        (filter (fun s => Z.eqb (SavedSkeet.user_id s) u
                          && Z.eqb (SavedSkeet.post_id s) p) l).
Proof.
  induction l as [|s l IH]; [reflexivity|].
  cbn [map filter]. rewrite IH.
  assert (E : forall s, SavedSkeet.user_id (set_book_id sid bid s)
                        = SavedSkeet.user_id s
                        /\ SavedSkeet.post_id (set_book_id sid bid s)
                           = SavedSkeet.post_id s).
  { intros x. unfold set_book_id. now destruct (Z.eqb _ sid). }
  destruct (E s) as [-> ->]. now destruct (_ && _).
Qed.

(** What [save_skeet_to_db] does to the rows of the post of [self], by the
    row it finds there. *)
Lemma save_skeet_spec self book db :
  let db1 := exec (save_skeet_to_db self book) db in
  let key := post_key self db in
  (post_key self db1 = key /\ exec (post_of self) db1 = db1)
  /\ (forall u p, (u, p) <> (1%Z, key) ->
        length (skeets_keyed u p db1) = length (skeets_keyed u p db))
  /\ match skeets_keyed 1 key db with
     | [] =>
         exists s, skeets_keyed 1 key db1 = [s]
                   /\ SavedSkeet.book_id s = option_map Book.id book
     | s :: r =>
         match book, SavedSkeet.book_id s with
         | Some b, None =>
             exists s' r',
               skeets_keyed 1 key db1 = s' :: r'
               /\ length r' = length r
               /\ SavedSkeet.book_id s' = Some (Book.id b)
         | _, _ => db1 = exec (post_of self) db
         end
     end.
Proof.
  unfold exec, post_key, outcome, save_skeet_to_db, bind.
  destruct (post_of_spec self db)
    as (post & dbp & -> & Hsel & Ep & _ & _ & _ & _ & _ & Hs).
  cbn [fst snd]. rewrite select_saved_skeet_keyed.
  rewrite <- (skeets_keyed_skeets 1 (Post.id post) db dbp Hs).
  assert (Hkey : forall db', posts db' = posts dbp ->
              post_of self db' = (db', Ok post)).
  { intros db' H. apply post_of_found.
    now rewrite (select_post_posts _ dbp db' H). }
  destruct (skeets_keyed 1 (Post.id post) dbp) as [|s r] eqn:Hk;
    cbn [hd_error].
  - cbn [fst]. rewrite Hkey by reflexivity. split; [split; reflexivity|].
    split.
    + intros u p Hne. rewrite <- (skeets_keyed_skeets u p db dbp Hs).
      unfold skeets_keyed. cbn [saved_skeets]. rewrite filter_snoc.
      cbn [SavedSkeet.user_id SavedSkeet.post_id].
      destruct (Z.eqb_spec 1 u) as [<-|]; cbn [andb];
        [|now rewrite app_nil_r].
      destruct (Z.eqb_spec (Post.id post) p) as [<-|]; [congruence|].
      now rewrite app_nil_r.
    + eexists. split.
      * unfold skeets_keyed in *. cbn [saved_skeets]. rewrite filter_snoc, Hk.
        cbn [SavedSkeet.user_id SavedSkeet.post_id].
        now rewrite !Z.eqb_refl.
      * reflexivity.
  - destruct book as [b|]; [destruct (SavedSkeet.book_id s) eqn:Hb|];
      cbn [fst];
      try (rewrite Ep; cbn [fst snd]; split; [split; reflexivity|]; split;
           [intros u p _; now rewrite (skeets_keyed_skeets u p db dbp Hs)
           |reflexivity]).
    rewrite Hkey by reflexivity. split; [split; reflexivity|]. split.
    + intros u p _. rewrite <- (skeets_keyed_skeets u p db dbp Hs).
      unfold skeets_keyed. cbn [saved_skeets].
      now rewrite filter_key_set_book_id, length_map.
    + unfold skeets_keyed in *. cbn [saved_skeets].
      rewrite filter_key_set_book_id, Hk. cbn [map].
      eexists; eexists. split; [reflexivity|]. split; [apply length_map|].
      unfold set_book_id. now rewrite Z.eqb_refl.
Qed.

Lemma post_of_saved_skeets self db :
  saved_skeets (exec (post_of self) db) = saved_skeets db.
Proof.
  unfold exec.
  destruct (post_of_spec self db) as (post & dbp & -> & H).
  cbn [fst]. tauto.
Qed.

Lemma skeets_unique_save_skeet self book db :
  skeets_unique db -> skeets_unique (exec (save_skeet_to_db self book) db).
Proof.
  intros Hu u p.
  destruct (save_skeet_spec self book db) as (_ & Hother & Hkeyed).
  assert (D : (u, p) = (1%Z, post_key self db) \/ (u, p) <> (1%Z, post_key self db)).
  { destruct (Z.eq_dec u 1) as [->|]; [|right; congruence].
    destruct (Z.eq_dec p (post_key self db)) as [->|]; [now left|].
    right; congruence. }
  destruct D as [[= -> ->]|Hne]; [|rewrite (Hother u p Hne); apply Hu].
  specialize (Hu 1%Z (post_key self db)).
  destruct (skeets_keyed 1 (post_key self db) db) as [|s r] eqn:Hk.
  - destruct Hkeyed as (s & -> & _). simpl. lia.
  - assert (Hsame : exec (save_skeet_to_db self book) db
                    = exec (post_of self) db ->
                    length (skeets_keyed 1 (post_key self db)
                              (exec (save_skeet_to_db self book) db)) <= 1).
    { intros ->.
      now rewrite (skeets_keyed_skeets _ _ _ _ (post_of_saved_skeets _ _)), Hk. }
    destruct book as [b|]; [destruct (SavedSkeet.book_id s)|]; auto.
    destruct Hkeyed as (s' & r' & -> & Hlen & _). simpl in *. lia.
Qed.

End Skeets.

(** C6. [save_skeet_to_db] keeps one SavedSkeet row per (user_id, post_id)
    pair and fills book_id only while it is null.  For every post, stored
    under user 1 (the only user the method writes for): called with no book,
    then with the book of id 7, then with the book of id 9, on a store that
    had no SavedSkeet row for the post, it leaves exactly one row for the
    post, with book_id 7; the third call and a further call with no book
    change no SavedSkeet row, and no pair of the store gets a second row. *)
Theorem save_skeet_backfills_once :
  forall self b7 b9 db,
    Book.id b7 = 7%Z -> Book.id b9 = 9%Z ->
    skeets_unique db ->
    skeets_keyed 1 (post_key self db) db = [] ->
    let db1 := exec (save_skeet_to_db self None) db in
    let db2 := exec (save_skeet_to_db self (Some b7)) db1 in
    let db3 := exec (save_skeet_to_db self (Some b9)) db2 in
    (exists s, skeets_keyed 1 (post_key self db) db3 = [s]
               /\ SavedSkeet.book_id s = Some 7%Z)
    /\ db3 = db2
    /\ exec (save_skeet_to_db self None) db3 = db3
    /\ exec (save_skeet_to_db self None) db1 = db1
    /\ skeets_unique db1 /\ skeets_unique db2 /\ skeets_unique db3.
Proof.
  intros self b7 b9 db H7 H9 Hu Hnone db1 db2 db3.
  destruct (save_skeet_spec self None db) as ((Hk1 & Hp1) & _ & Hs1).
  fold db1 in Hk1, Hp1, Hs1. rewrite Hnone in Hs1.
  destruct Hs1 as (s1 & Hs1 & Hb1). cbn [option_map] in Hb1.
  destruct (save_skeet_spec self None db1) as (_ & _ & Hs1').
  rewrite Hk1, Hs1, Hp1 in Hs1'.
  destruct (save_skeet_spec self (Some b7) db1) as ((Hk2 & Hp2) & _ & Hs2).
  fold db2 in Hk2, Hp2, Hs2. rewrite Hk1, Hs1, Hb1 in Hs2. rewrite Hk1 in Hk2.
  destruct Hs2 as (s2 & r2 & Hs2 & Hr2 & Hb2).
  destruct r2; [|discriminate Hr2]. rewrite H7 in Hb2.
  destruct (save_skeet_spec self (Some b9) db2) as (_ & _ & Hs3).
  fold db3 in Hs3. rewrite Hk2, Hs2, Hb2, Hp2 in Hs3.
  destruct (save_skeet_spec self None db2) as (_ & _ & Hs4).
  rewrite Hk2, Hs2, Hp2 in Hs4.
  assert (Hu1 : skeets_unique db1) by now apply skeets_unique_save_skeet.
  assert (Hu2 : skeets_unique db2) by now apply skeets_unique_save_skeet.
  rewrite Hs3. repeat split; trivial.
  exists s2. now split.
Qed.

(** ** Properties of the batch loop *)

Section Loop.

Variable zs : string -> list string -> external (list string).
Variable qa : string -> string -> external (option (option string)).
Variable iso : string -> option datetime.

Lemma bind_run {A B} (m : M A) (k : A -> M B) db :
  bind m k db
  = match m db with
    | (db', Ok a) => k a db'
    | (db', Raise e) => (db', Raise e)
    end.
Proof. reflexivity. Qed.

Lemma classify_and_save_posts_cons post rest db :
  classify_and_save_posts zs qa iso (post :: rest) db
  = match process_post zs qa iso post db with
    | (db1, Ok a) =>
        match classify_and_save_posts zs qa iso rest db1 with
        | (db2, Ok r) => (db2, Ok (a :: r))
        | (db2, Raise e) => (db2, Raise e)
        end
    | (db1, Raise e) => (db1, Raise e)
    end.
Proof.
  cbn [classify_and_save_posts]. rewrite bind_run.
  destruct (process_post zs qa iso post db) as [db1 [a|e]]; [|reflexivity].
  rewrite bind_run.
  now destruct (classify_and_save_posts zs qa iso rest db1) as [db2 [r|e]].
Qed.

Lemma classify_and_save_posts_app before after db :
  classify_and_save_posts zs qa iso (before ++ after) db
  = match classify_and_save_posts zs qa iso before db with
    | (db1, Ok done) =>
        match classify_and_save_posts zs qa iso after db1 with
        | (db2, Ok rest) => (db2, Ok (done ++ rest)%list)
        | (db2, Raise e) => (db2, Raise e)
        end
    | (db1, Raise e) => (db1, Raise e)
    end.
Proof.
  revert db; induction before as [|post before IH]; intros db.
  - cbn. now destruct (classify_and_save_posts zs qa iso after db) as [? []].
  - cbn [app]. rewrite !classify_and_save_posts_cons.
    destruct (process_post zs qa iso post db) as [db1 [a|e]]; [|reflexivity].
    rewrite IH.
    destruct (classify_and_save_posts zs qa iso before db1) as [db2 [d|e]];
      [|reflexivity].
    now destruct (classify_and_save_posts zs qa iso after db2) as [? []].
Qed.

Lemma process_post_classify_fails post ts e db :
  iso (Raw.timestamp post) = Some ts ->
  classify_genre zs (classifier_of post ts) = Raise e ->
  process_post zs qa iso post db = (db, Raise e).
Proof.
  intros Hts Hc. unfold process_post. rewrite Hts, bind_run.
  unfold lift. now rewrite Hc.
Qed.

End Loop.

(** C1, as stated, fails: in a batch of three posts where only the
    classification of the second raises, the third post is not persisted. *)
Lemma batch_resilience_fails :
  ~ (forall zs qa iso p1 p2 p3 db,
       (exists detail, zs (Raw.text p2) candidate_labels = Failed detail) ->
       (exists l ls, zs (Raw.text p1) candidate_labels = Returned (l :: ls)) ->
       (exists l ls, zs (Raw.text p3) candidate_labels = Returned (l :: ls)) ->
       let db' := exec (classify_and_save_posts zs qa iso [p1; p2; p3]) db in
       post_stored (Raw.text p1) db' = true
       /\ post_stored (Raw.text p3) db' = true).
Proof.
  intros H.
  destruct (H zs_stub (qa_stub "Frank Herbert" "Dune") iso_stub
              (raw_post "first") (raw_post "second") (raw_post "third")
              empty_db) as [_ H3].
  - now exists "503".
  - now exists "fantasy", ["romance"].
  - now exists "fantasy", ["romance"].
  - vm_compute in H3. discriminate H3.
Qed.

(** C1, amended. A failure while a post is processed (the classification
    or an extraction call failing, or a persistence error) propagates out of
    [classify_and_save_posts] and ends the batch: what the earlier posts
    committed stays committed, the failure is raised to the caller, and no
    later post is processed.  When it is the classification call of the
    post that fails, the store is exactly as the earlier posts left it. *)
Theorem batch_stops_at_failure :
  forall zs qa iso before post after db db1 done db2 e,
    classify_and_save_posts zs qa iso before db = (db1, Ok done) ->
    process_post zs qa iso post db1 = (db2, Raise e) ->
    classify_and_save_posts zs qa iso (before ++ post :: after) db
    = (db2, Raise e)
    /\ (forall ts e',
          iso (Raw.timestamp post) = Some ts ->
          classify_genre zs (classifier_of post ts) = Raise e' ->
          db2 = db1 /\ e = e').
Proof.
  intros zs qa iso before post after db db1 done db2 e Hb Hp. split.
  - rewrite classify_and_save_posts_app, Hb, classify_and_save_posts_cons.
    now rewrite Hp.
  - intros ts e' Hts Hc.
    rewrite (process_post_classify_fails zs qa iso post ts e' db1 Hts Hc) in Hp.
    now injection Hp as -> ->.
Qed.

Lemma batch_stops_at_failure_witness :
  let run := classify_and_save_posts zs_stub (qa_stub "Frank Herbert" "Dune")
               iso_stub in
  let db1 := exec (run [raw_post "first"]) empty_db in
  run [raw_post "first"; raw_post "second"; raw_post "third"] empty_db
  = (db1, Raise (ExternalServiceError "503"))
  /\ post_stored "first" db1 = true
  /\ post_stored "third" db1 = false.
Proof.
  intros run db1. split; [|split; vm_compute; reflexivity].
  destruct (batch_stops_at_failure zs_stub (qa_stub "Frank Herbert" "Dune")
              iso_stub [raw_post "first"] (raw_post "second")
              [raw_post "third"] empty_db db1
              (match outcome (run [raw_post "first"]) empty_db with
               | Ok done => done
               | Raise _ => []
               end)
              db1 (ExternalServiceError "503")) as [H _].
  - vm_compute. reflexivity.
  - vm_compute. reflexivity.
  - exact H.
Defined.

Section Persisted.

Variable zs : string -> list string -> external (list string).
Variable qa : string -> string -> external (option (option string)).
Variable iso : string -> option datetime.

Lemma save_genre_to_db_returns self genre_name db :
  save_genre_to_db self genre_name db
  = (exec (save_genre_to_db self genre_name) db, Ok tt).
Proof.
  unfold exec, save_genre_to_db. rewrite !bind_run.
  destruct (post_of_spec self db) as (post & dbp & -> & _).
  rewrite bind_run.
  destruct (genre_of_spec genre_name dbp) as (genre & dbg & -> & _).
  now destruct (add_classified_spec (Post.id post) (Genre.id genre) dbg)
    as (dbc & -> & _).
Qed.

Lemma save_skeet_to_db_returns self book db :
  save_skeet_to_db self book db
  = (exec (save_skeet_to_db self book) db, Ok tt).
Proof.
  unfold exec, save_skeet_to_db. rewrite !bind_run.
  destruct (post_of_spec self db) as (post & dbp & -> & _).
  destruct (select_saved_skeet (Post.id post) dbp) as [s|]; [|reflexivity].
  now destruct book, (SavedSkeet.book_id s).
Qed.

(** After [save_skeet_to_db] the post of [self] has a SavedSkeet row of
    user 1. *)
Lemma save_skeet_to_db_saves self book db :
  skeets_keyed 1 (post_key self db) (exec (save_skeet_to_db self book) db)
  <> [].
Proof.
  destruct (save_skeet_spec self book db) as (_ & _ & H).
  destruct (skeets_keyed 1 (post_key self db) db) as [|s r] eqn:Hk.
  - destruct H as (s & -> & _). discriminate.
  - assert (Hsame : exec (save_skeet_to_db self book) db
                    = exec (post_of self) db ->
                    skeets_keyed 1 (post_key self db)
                      (exec (save_skeet_to_db self book) db) <> []).
    { intros ->.
      rewrite (skeets_keyed_skeets _ _ _ _ (post_of_saved_skeets _ _)), Hk.
      discriminate. }
    destruct book as [b|]; [destruct (SavedSkeet.book_id s)|]; auto.
    destruct H as (s' & r' & -> & _). discriminate.
Qed.

Lemma save_entities_one self genre author book_title db :
  save_entities self genre [(author, book_title)] db
  = save_entity self genre author book_title db.
Proof.
  cbn [save_entities]. rewrite bind_run.
  now destruct (save_entity self genre author book_title db) as [db1 [[]|e]].
Qed.

Lemma extract_entities_returns self author book_title :
  extract_author qa self = Ok author ->
  extract_book_title qa self = Ok book_title ->
  extract_entities qa self
  = Ok ([clean_author author], [clean_book_title author book_title]).
Proof. intros Ha Ht. unfold extract_entities. now rewrite Ha, Ht. Qed.

End Persisted.

(** C7, as stated, fails: a title that is cleaned to the empty string is
    not null, and yet the post is saved without a book and
    [save_book_to_db] is not called. *)
Lemma persisted_branches_on_null_fails :
  ~ (forall self genre author book_title db,
       save_entity self genre (clean_author author)
                   (clean_book_title author book_title) db
       = save_entity_on_null self genre (clean_author author)
                             (clean_book_title author book_title) db).
Proof.
  intros H.
  specialize (H (some_classifier "x") "fantasy" "frank herbert"
                "Frank Herbert" empty_db).
  vm_compute in H. discriminate H.
Qed.

(** C7, amended. For every post that [classify_and_save_posts] processes,
    the persisted step branches on whether the cleaned title is empty: if
    the cleaned title is null or the empty string, [save_skeet_to_db] runs
    with no book, which ensures a SavedSkeet for the post under user 1;
    otherwise [save_book_to_db(title, author, genre)] runs first and
    [save_skeet_to_db] then runs with the Book it returned, under user 1
    as well. *)
Theorem persisted_step_branches_on_truthiness :
  forall zs qa iso post ts genre author book_title db,
    iso (Raw.timestamp post) = Some ts ->
    classify_genre zs (classifier_of post ts) = Ok genre ->
    extract_author qa (classifier_of post ts) = Ok author ->
    extract_book_title qa (classifier_of post ts) = Ok book_title ->
    let self := classifier_of post ts in
    let db0 := exec (save_genre_to_db self genre) db in
    let annotated :=
      {| raw := post; predicted_genre := genre;
         authors := [clean_author author];
         book_titles := [clean_book_title author book_title] |} in
    process_post zs qa iso post db
    = match clean_book_title author book_title with
      | None | Some EmptyString =>
          (exec (save_skeet_to_db self None) db0, Ok annotated)
      | Some t =>
          match save_book_to_db self t (clean_author author) genre db0 with
          | (db1, Ok book) =>
              (exec (save_skeet_to_db self (Some book)) db1, Ok annotated)
          | (db1, Raise e) => (db1, Raise e)
          end
      end
    /\ (forall book db1,
          skeets_keyed 1 (post_key self db1)
                       (exec (save_skeet_to_db self book) db1) <> []).
Proof.
  intros zs qa iso post ts genre author book_title db Hts Hg Ha Ht
         self db0 annotated.
  split; [|intros book db1; apply save_skeet_to_db_saves].
  subst self db0 annotated. unfold process_post. rewrite Hts.
  unfold lift. rewrite bind_run, Hg, bind_run, save_genre_to_db_returns.
  rewrite bind_run, (extract_entities_returns qa _ _ _ Ha Ht).
  cbn [fst snd combine]. rewrite bind_run, save_entities_one.
  unfold save_entity.
  destruct (clean_book_title author book_title) as [[|c t]|].
  - now rewrite save_skeet_to_db_returns.
  - rewrite bind_run.
    destruct (save_book_to_db _ (String c t) (clean_author author) genre _)
      as [db1 [book|e]]; [|reflexivity].
    now rewrite save_skeet_to_db_returns.
  - now rewrite save_skeet_to_db_returns.
Qed.

Lemma persisted_step_branches_on_truthiness_witness :
  let post := raw_post "I loved Dune by Frank Herbert!" in
  let run := process_post zs_stub (qa_stub "Frank Herbert" "Dune") iso_stub in
  outcome (run post) empty_db
  = Ok {| raw := post; predicted_genre := "fantasy";
          authors := [Some "Frank Herbert"]; book_titles := [Some "Dune"] |}
  /\ map SavedSkeet.book_id (saved_skeets (exec (run post) empty_db))
     = [Some 1%Z].
Proof.
  intros post run.
  destruct (persisted_step_branches_on_truthiness
              zs_stub (qa_stub "Frank Herbert" "Dune") iso_stub post 0%Z
              "fantasy" "Frank Herbert" "Dune" empty_db
              eq_refl eq_refl eq_refl eq_refl) as [H _].
  unfold outcome, exec, run. rewrite H. vm_compute. split; reflexivity.
Defined.

Section NoEmptyTitleError.

Variable zs : string -> list string -> external (list string).
Variable qa : string -> string -> external (option (option string)).
Variable iso : string -> option datetime.

Lemma spared_raise {A B} e :
  spared (@Raise A e) -> spared (@Raise B e).
Proof. intros H [= ->]. now apply H. Qed.

Lemma save_book_spared self c t author genre db :
  spared (outcome (save_book_to_db self (String c t) author genre) db).
Proof.
  unfold outcome, save_book_to_db. rewrite bind_run.
  destruct (genre_of_spec genre db) as (g & dbg & -> & _).
  cbn [truthy negb].
  destruct (select_book (String c t) author dbg); [discriminate|].
  destruct author; discriminate.
Qed.

Lemma save_entity_spared self genre author book_title db :
  spared (outcome (save_entity self genre author book_title) db).
Proof.
  unfold outcome, save_entity.
  destruct book_title as [[|c t]|];
    try (rewrite save_skeet_to_db_returns; discriminate).
  rewrite bind_run.
  pose proof (save_book_spared self c t author genre db) as H.
  unfold outcome in H.
  destruct (save_book_to_db self (String c t) author genre db)
    as [db1 [book|e]]; [|exact (spared_raise e H)].
  rewrite save_skeet_to_db_returns. discriminate.
Qed.

Lemma save_entities_spared self genre pairs db :
  spared (outcome (save_entities self genre pairs) db).
Proof.
  revert db; induction pairs as [|[author book_title] pairs IH]; intros db.
  - discriminate.
  - unfold outcome. cbn [save_entities]. rewrite bind_run.
    pose proof (save_entity_spared self genre author book_title db) as H.
    unfold outcome in H.
    destruct (save_entity self genre author book_title db) as [db1 [[]|e]];
      [apply IH|exact (spared_raise e H)].
Qed.

Lemma classify_genre_spared self : spared (classify_genre zs self).
Proof.
  unfold classify_genre.
  destruct (zs (post_text self) candidate_labels) as [[|l ls]|d]; discriminate.
Qed.

Lemma extract_entities_spared self : spared (extract_entities qa self).
Proof.
  unfold extract_entities, extract_author, extract_book_title.
  destruct (qa "Who is the author?" (post_text self)); [|discriminate].
  destruct (qa "What is the book title?" (post_text self)); discriminate.
Qed.

Lemma process_post_spared post db :
  spared (outcome (process_post zs qa iso post) db).
Proof.
  unfold outcome, process_post.
  destruct (iso (Raw.timestamp post)) as [ts|]; [|discriminate].
  unfold lift. rewrite bind_run.
  pose proof (classify_genre_spared (classifier_of post ts)) as Hc.
  destruct (classify_genre zs (classifier_of post ts)) as [genre|e];
    [|exact (spared_raise e Hc)].
  rewrite bind_run, save_genre_to_db_returns, bind_run.
  pose proof (extract_entities_spared (classifier_of post ts)) as He.
  destruct (extract_entities qa (classifier_of post ts)) as [entities|e];
    [|exact (spared_raise e He)].
  rewrite bind_run.
  pose proof (save_entities_spared (classifier_of post ts) genre
                (combine (fst entities) (snd entities))
                (exec (save_genre_to_db (classifier_of post ts) genre) db))
    as Hs.
  unfold outcome in Hs.
  destruct (save_entities _ _ _ _) as [db1 [[]|e]]; [discriminate|exact (spared_raise e Hs)].
Qed.

Lemma classify_and_save_posts_spared raw_posts db :
  spared (outcome (classify_and_save_posts zs qa iso raw_posts) db).
Proof.
  revert db; induction raw_posts as [|post rest IH]; intros db.
  - discriminate.
  - unfold outcome. rewrite classify_and_save_posts_cons.
    pose proof (process_post_spared post db) as Hp. unfold outcome in Hp.
    destruct (process_post zs qa iso post db) as [db1 [a|e]];
      [|exact (spared_raise e Hp)].
    specialize (IH db1). unfold outcome in IH.
    destruct (classify_and_save_posts zs qa iso rest db1) as [db2 [r|e]];
      [discriminate|exact (spared_raise e IH)].
Qed.

End NoEmptyTitleError.

(** C10. [extract_entities] can return the empty string, not null, as the
    cleaned title (a title that is only the author's name, or that starts
    with a slash); [classify_and_save_posts] tests the cleaned title for
    falsiness, so every such post is saved without a book, and the
    empty-title error of [save_book_to_db] is never raised by the batch
    loop. *)
Theorem empty_title_error_unreachable :
  clean_book_title "frank herbert" "Frank Herbert" = Some ""
  /\ clean_book_title "J K Rowling" "/ UK Edition" = Some ""
  /\ (forall self genre author,
        save_entity self genre author (Some "") = save_skeet_to_db self None)
  /\ (forall self author genre db,
        outcome (save_book_to_db self "" author genre) db
        = Raise empty_title_error)
  /\ (forall zs qa iso raw_posts db,
        outcome (classify_and_save_posts zs qa iso raw_posts) db
        <> Raise empty_title_error).
Proof.
  split; [vm_compute; reflexivity|].
  split; [vm_compute; reflexivity|].
  split; [reflexivity|].
  split; [|exact classify_and_save_posts_spared].
  intros self author genre db. unfold outcome, save_book_to_db.
  rewrite bind_run. now destruct (genre_of_spec genre db) as (g & dbg & -> & _).
Qed.

(** ** The theorems at concrete inputs *)

Lemma ensure_genre_and_book_idempotent_witness :
  truthy "Dune" = true
  /\ let save := save_book_to_db (some_classifier "x") "Dune"
                   (Some "Frank Herbert") in
     let db1 := exec (save "science fiction") empty_db in
     let db2 := exec (save "fantasy") db1 in
     books db2 = books db1
     /\ length (books_keyed "Dune" "Frank Herbert" db2) = 1.
Proof.
  split; [reflexivity|].
  assert (Hone : length (books_keyed "Dune" "Frank Herbert" empty_db) <= 1)
    by (simpl; lia).
  destruct (ensure_genre_and_book_idempotent
              (some_classifier "x") (some_classifier "x") "Thriller"
              "Dune" "Frank Herbert" "science fiction" "fantasy" empty_db
              eq_refl Hone) as (_ & _ & book & _ & _ & Hsame & Hlen).
  split; [exact Hsame|exact Hlen].
Defined.

Lemma save_skeet_backfills_once_witness :
  let self := some_classifier "I loved Dune by Frank Herbert!" in
  let book id := {| Book.id := id; Book.title := "Dune";
                    Book.author := "Frank Herbert"; Book.genre_id := 1%Z |} in
  let db1 := exec (save_skeet_to_db self None) empty_db in
  let db2 := exec (save_skeet_to_db self (Some (book 7%Z))) db1 in
  let db3 := exec (save_skeet_to_db self (Some (book 9%Z))) db2 in
  skeets_keyed 1 (post_key self empty_db) empty_db = []
  /\ exists s, skeets_keyed 1 (post_key self empty_db) db3 = [s]
               /\ SavedSkeet.book_id s = Some 7%Z.
Proof.
  intros self book db1 db2 db3. split; [reflexivity|].
  assert (Hu : skeets_unique empty_db) by (intros u p; simpl; lia).
  destruct (save_skeet_backfills_once self (book 7%Z) (book 9%Z) empty_db
              eq_refl eq_refl Hu eq_refl) as (H & _).
  exact H.
Defined.

Lemma reachable_classified_ok_witness :
  classified_ok
    (exec (save_genre_to_db (some_classifier "I loved Dune!") "fantasy")
          empty_db).
Proof.
  apply reachable_classified_ok. apply reach_genre. apply reach_empty.
Defined.

Lemma save_book_empty_title_keeps_genre_witness :
  genres_named "fantasy" empty_db = []
  /\ map Genre.name
         (genres (exec (save_book_to_db (some_classifier "x") ""
                          (Some "Frank Herbert") "fantasy") empty_db))
     = ["fantasy"].
Proof.
  split; [reflexivity|].
  destruct (save_book_empty_title_keeps_genre
              (some_classifier "x") (Some "Frank Herbert") "fantasy" empty_db
              eq_refl) as (_ & H & _).
  rewrite H. reflexivity.
Defined.

(** ** Normal forms of the cleaned strings *)

Section TitleCase.














End TitleCase.

Section NormalForms.













End NormalForms.





Section CaseBlind.






End CaseBlind.



(** X4. The placeholder test runs on the raw answer, before any trimming:
    an answer that starts with a blank is never taken for a placeholder, so
    its author and its title are not null (" unknown" is cleaned to the
    author "Unknown"). *)
Theorem blank_led_answer_is_kept :
  forall answer author,
    starts_blank answer = true ->
    clean_author answer <> None
    /\ clean_book_title author answer <> None
    /\ clean_author " unknown" = Some "Unknown".
Proof.
  intros answer author H. destruct answer as [|c r]; [discriminate|].
  cbn [starts_blank] in H.
  assert (Hl : PyStr.isspace (PyStr.lower_char c) = true)
    by now rewrite isspace_lower_char.
  assert (Hne : forall d w, PyStr.isspace d = false ->
            String.eqb (PyStr.lower (String c r)) (String d w) = false).
  { intros d w Hd. cbn [PyStr.lower String.eqb].
    destruct (Ascii.eqb_spec (PyStr.lower_char c) d) as [E|]; [|reflexivity].
    congruence. }
  unfold clean_author, clean_book_title, PyStr.mem, author_placeholders,
    title_placeholders. cbn [truthy negb orb existsb].
  rewrite !Hne by reflexivity. cbn [orb].
  repeat split; discriminate.
Qed.

Lemma blank_led_answer_is_kept_witness :
  starts_blank " none" = true /\ clean_author " none" <> None.
Proof.
  split; [reflexivity|].
  exact (proj1 (blank_led_answer_is_kept " none" "" eq_refl)).
Defined.

(** ** Every change to the store is a guarded row write *)

Section Writes.

Lemma writes_one db db1 : write db db1 -> writes db db1.
Proof. intros H. eapply writes_more; [exact H|apply writes_none]. Qed.

Lemma writes_trans db db1 db2 :
  writes db db1 -> writes db1 db2 -> writes db db2.
Proof.
  induction 1 as [|db db1 db1' Hw _ IH]; [trivial|].
  intros H. eapply writes_more; [exact Hw|now apply IH].
Qed.

Lemma exec_bind {A B} (m : M A) (k : A -> M B) db :
  exec (bind m k) db
  = match outcome m db with
    | Ok a => exec (k a) (exec m db)
    | Raise _ => exec m db
    end.
Proof.
  unfold exec, outcome, bind. now destruct (m db) as [db1 [a|e]].
Qed.

Lemma outcome_bind {A B} (m : M A) (k : A -> M B) db :
  outcome (bind m k) db
  = match outcome m db with
    | Ok a => outcome (k a) (exec m db)
    | Raise e => Raise e
    end.
Proof.
  unfold exec, outcome, bind. now destruct (m db) as [db1 [a|e]].
Qed.

Lemma post_of_writes self db : writes db (exec (post_of self) db).
Proof.
  unfold exec, post_of.
  destruct (select_post (post_text self) db) eqn:E; [apply writes_none|].
  apply writes_one.
  apply (write_post db {| Post.id := next_id (map Post.id (posts db));
                          Post.handle := handle self;
                          Post.display_name := display_name self;
                          Post.text := post_text self;
                          Post.timestamp := timestamp self;
                          Post.like_count := like_count self;
                          Post.uri := uri self |}); [exact E|reflexivity].
Qed.

Lemma genre_of_writes genre_name db : writes db (exec (genre_of genre_name) db).
Proof.
  unfold exec, genre_of.
  destruct (select_genre genre_name db) eqn:E; [apply writes_none|].
  apply writes_one.
  apply (write_genre db {| Genre.id := next_id (map Genre.id (genres db));
                           Genre.name := genre_name;
                           Genre.description := None |});
    [exact E|reflexivity].
Qed.

Lemma add_classified_writes post_id genre_id db :
  In post_id (map Post.id (posts db)) ->
  In genre_id (map Genre.id (genres db)) ->
  writes db (exec (add_classified post_id genre_id) db).
Proof.
  intros Hp Hg. unfold exec, add_classified.
  destruct (select_classified post_id genre_id db) eqn:E; [apply writes_none|].
  apply writes_one.
  now apply (write_classified db {| ClassifiedPost.post_id := post_id;
                                    ClassifiedPost.genre_id := genre_id |}).
Qed.

Lemma save_genre_to_db_writes self genre_name db :
  writes db (exec (save_genre_to_db self genre_name) db).
Proof.
  unfold save_genre_to_db. rewrite exec_bind.
  pose proof (post_of_writes self db) as W1. unfold exec, outcome in *.
  destruct (post_of_spec self db)
    as (post & dbp & E & _ & _ & Hpin & _). rewrite E in *. cbn [fst snd] in *.
  fold (exec (bind (genre_of genre_name)
                   (fun genre => add_classified (Post.id post) (Genre.id genre)))
             dbp).
  rewrite exec_bind.
  pose proof (genre_of_writes genre_name dbp) as W2. unfold exec, outcome in *.
  destruct (genre_of_spec genre_name dbp)
    as (genre & dbg & Eg & _ & _ & Hgin & _ & _ & _ & Hp & _).
  rewrite Eg in *. cbn [fst snd] in *.
  eapply writes_trans; [exact W1|]. eapply writes_trans; [exact W2|].
  apply add_classified_writes.
  - rewrite Hp. now apply in_map.
  - now apply in_map.
Qed.

(** What [save_book_to_db] returns is stored. *)
Lemma save_book_to_db_writes self t a g db :
  writes db (exec (save_book_to_db self t a g) db)
  /\ forall book,
       outcome (save_book_to_db self t a g) db = Ok book ->
       In book (books (exec (save_book_to_db self t a g) db)).
Proof.
  unfold save_book_to_db. rewrite exec_bind, outcome_bind.
  pose proof (genre_of_writes g db) as W1. unfold exec, outcome in *.
  destruct (genre_of_spec g db)
    as (genre & dbg & Eg & _ & _ & Hgin & _). rewrite Eg in *.
  cbn [fst snd] in *.
  destruct (truthy t); cbn [negb]; [|split; [exact W1|discriminate]].
  destruct (select_book t a dbg) as [b|] eqn:Hb; cbn [fst snd].
  - split; [exact W1|]. intros book [= <-].
    unfold select_book in Hb. apply find_some in Hb. tauto.
  - destruct a as [a|]; cbn [fst snd]; [|split; [exact W1|discriminate]].
    split.
    + eapply writes_trans; [exact W1|]. apply writes_one.
      apply (write_book dbg {| Book.id := next_id (map Book.id (books dbg));
                               Book.title := t; Book.author := a;
                               Book.genre_id := Genre.id genre |});
        [exact Hb|reflexivity|cbn [Book.genre_id]; now apply in_map].
    + intros book [= <-]. cbn [books]. apply in_or_app. right. now left.
Qed.

Lemma save_skeet_to_db_writes self book db :
  (forall b, book = Some b -> In (Book.id b) (map Book.id (books db))) ->
  writes db (exec (save_skeet_to_db self book) db).
Proof.
  intros Hbook. unfold save_skeet_to_db. rewrite exec_bind.
  pose proof (post_of_writes self db) as W1. unfold exec, outcome in *.
  destruct (post_of_spec self db)
    as (post & dbp & E & _ & _ & Hpin & _ & _ & Hbk & _). rewrite E in *.
  cbn [fst snd] in *. rewrite <- Hbk in Hbook.
  eapply writes_trans; [exact W1|].
  destruct (select_saved_skeet (Post.id post) dbp) as [s|] eqn:Hs.
  - destruct book as [b|]; [|apply writes_none].
    destruct (SavedSkeet.book_id s) eqn:Hb; [apply writes_none|].
    cbn [fst]. apply writes_one.
    assert (Hpid : SavedSkeet.post_id s = Post.id post).
    { unfold select_saved_skeet in Hs. apply find_some in Hs as [_ Hs].
      apply andb_true_iff in Hs as [Hs _]. now apply Z.eqb_eq. }
    apply (write_backfill dbp s (Book.id b)); [now rewrite Hpid|exact Hb|].
    now apply Hbook.
  - cbn [fst]. apply writes_one.
    apply (write_saved_skeet dbp
             {| SavedSkeet.id := next_id (map SavedSkeet.id (saved_skeets dbp));
                SavedSkeet.post_id := Post.id post;
                SavedSkeet.user_id := 1;
                SavedSkeet.book_id := option_map Book.id book |});
      cbn [SavedSkeet.post_id SavedSkeet.user_id SavedSkeet.id
           SavedSkeet.book_id]; trivial.
    + now apply in_map.
    + intros bid. destruct book as [b|]; [|discriminate].
      intros [= <-]. now apply Hbook.
Qed.

Variable zs : string -> list string -> external (list string).
Variable qa : string -> string -> external (option (option string)).
Variable iso : string -> option datetime.

Lemma save_entity_writes self genre author book_title db :
  writes db (exec (save_entity self genre author book_title) db).
Proof.
  unfold save_entity.
  destruct book_title as [[|c t]|];
    try (apply save_skeet_to_db_writes; discriminate).
  rewrite exec_bind.
  destruct (save_book_to_db_writes self (String c t) author genre db)
    as [W Hin].
  destruct (outcome (save_book_to_db self (String c t) author genre) db)
    as [book|e]; [|exact W].
  eapply writes_trans; [exact W|]. apply save_skeet_to_db_writes.
  intros b [= <-]. apply in_map. now apply Hin.
Qed.

Lemma save_entities_writes self genre pairs db :
  writes db (exec (save_entities self genre pairs) db).
Proof.
  revert db; induction pairs as [|[a t] pairs IH]; intros db;
    [apply writes_none|].
  cbn [save_entities]. rewrite exec_bind.
  pose proof (save_entity_writes self genre a t db) as W.
  destruct (outcome (save_entity self genre a t) db); [|exact W].
  eapply writes_trans; [exact W|apply IH].
Qed.

Lemma writes_bind {A B} (m : M A) (k : A -> M B) db :
  writes db (exec m db) ->
  (forall a db1, writes db1 (exec (k a) db1)) ->
  writes db (exec (bind m k) db).
Proof.
  intros W1 W2. rewrite exec_bind.
  destruct (outcome m db); [|exact W1].
  eapply writes_trans; [exact W1|apply W2].
Qed.

Lemma process_post_writes post db :
  writes db (exec (process_post zs qa iso post) db).
Proof.
  unfold process_post.
  destruct (iso (Raw.timestamp post)) as [ts|]; [|apply writes_none].
  apply writes_bind; [apply writes_none|]. intros genre db1.
  apply writes_bind; [apply save_genre_to_db_writes|]. intros _ db2.
  apply writes_bind; [apply writes_none|]. intros entities db3.
  apply writes_bind; [apply save_entities_writes|]. intros _ db4.
  apply writes_none.
Qed.

Lemma classify_and_save_posts_writes raw_posts db :
  writes db (exec (classify_and_save_posts zs qa iso raw_posts) db).
Proof.
  revert db; induction raw_posts as [|post rest IH]; intros db;
    [apply writes_none|].
  cbn [classify_and_save_posts].
  apply writes_bind; [apply process_post_writes|]. intros a db1.
  apply writes_bind; [apply IH|]. intros r db2. apply writes_none.
Qed.

End Writes.

(** ** The invariants that guarded writes keep *)

Section Invariants.

Lemma NoDup_snoc {A} (l : list A) x : NoDup l -> ~ In x l -> NoDup (l ++ [x]).
Proof.
  induction l as [|y l IH]; intros Hnd Hin.
  - constructor; [intros []|constructor].
  - inversion_clear Hnd as [|? ? Hy Hl]. cbn [app]. constructor.
    + intros H. apply in_app_or in H as [H|[H|[]]]; [now apply Hy|].
      apply Hin. now left.
    + apply IH; [exact Hl|]. intros H. apply Hin. now right.
Qed.

Lemma find_none_key {A K} (key : A -> K) (test : A -> bool) k l :
  (forall y, key y = k -> test y = true) ->
  find test l = None -> ~ In k (map key l).
Proof.
  intros Htest Hnone Hin. apply in_map_iff in Hin as (y & Hk & Hy).
  pose proof (find_none _ _ Hnone y Hy) as H. rewrite (Htest y Hk) in H.
  discriminate.
Qed.

Lemma next_id_not_in ids : ~ In (next_id ids) ids.
Proof. intros H. apply next_id_fresh in H. lia. Qed.

Lemma map_set_book_id {K} (key : SavedSkeet.t -> K) sid bid l :
  (forall s, key (set_book_id sid bid s) = key s) ->
  map key (map (set_book_id sid bid) l) = map key l.
Proof. intros H. rewrite map_map. apply map_ext. exact H. Qed.

Lemma set_book_id_id sid bid s :
  SavedSkeet.id (set_book_id sid bid s) = SavedSkeet.id s.
Proof. unfold set_book_id. now destruct (Z.eqb _ _). Qed.

Lemma set_book_id_key sid bid s :
  skeet_key (set_book_id sid bid s) = skeet_key s.
Proof. unfold set_book_id. now destruct (Z.eqb _ _). Qed.

Lemma keys_ok_write db db1 : keys_ok db -> write db db1 -> keys_ok db1.
Proof.
  intros [] W.
  destruct W as [db post Hsel Hid|db genre Hsel Hid|db cp Hsel _ _
                |db book Hsel Hid _|db s Hsel Hu Hid _ _|db s bid _ _ _];
    constructor; cbn [posts genres books classified_posts saved_skeets
                      add_post add_genre add_book add_classified_post
                      add_saved_skeet backfill];
    rewrite ?map_app; cbn [map]; trivial.
  - apply NoDup_snoc; trivial. rewrite Hid. apply next_id_not_in.
  - apply NoDup_snoc; trivial.
    apply (find_none_key Post.text _ _ _ (fun y E => proj2 (String.eqb_eq _ _) E)
             Hsel).
  - apply NoDup_snoc; trivial. rewrite Hid. apply next_id_not_in.
  - apply NoDup_snoc; trivial.
    apply (find_none_key Genre.name _ _ _ (fun y E => proj2 (String.eqb_eq _ _) E)
             Hsel).
  - apply NoDup_snoc; trivial.
    apply (find_none_key classified_key _ _ _) with (2 := Hsel).
    intros y [= -> ->]. now rewrite !Z.eqb_refl.
  - apply NoDup_snoc; trivial. rewrite Hid. apply next_id_not_in.
  - apply NoDup_snoc; trivial.
    apply (find_none_key book_key _ _ _) with (2 := Hsel).
    intros y [= -> ->]. now rewrite !String.eqb_refl.
  - apply NoDup_snoc; trivial. rewrite Hid. apply next_id_not_in.
  - apply NoDup_snoc; trivial.
    apply (find_none_key skeet_key _ _ _) with (2 := Hsel).
    unfold skeet_key. rewrite Hu. intros y [= -> ->]. now rewrite !Z.eqb_refl.
  - now rewrite (map_set_book_id _ _ _ _ (set_book_id_id _ _)).
  - now rewrite (map_set_book_id _ _ _ _ (set_book_id_key _ _)).
Qed.

Lemma keys_ok_writes db db1 : writes db db1 -> keys_ok db -> keys_ok db1.
Proof.
  induction 1 as [|db db1 db2 W _ IH]; [trivial|].
  intros H. apply IH. now apply (keys_ok_write db).
Qed.

Local Ltac ref_solve :=
  intros;
  repeat match goal with
         | H : In _ (_ ++ [_]) |- _ => apply in_app_or in H as [H|[<-|[]]]
         end;
  rewrite ?map_app;
  first [solve [eauto] | solve [apply in_or_app; left; eauto]].

Lemma refs_ok_write db db1 : refs_ok db -> write db db1 -> refs_ok db1.
Proof.
  intros [Hbg Hcp Hcg Hsp Hsb] W.
  destruct W as [db post _ _|db genre _ _|db cp _ Hp Hg
                |db book _ _ Hg|db s _ _ _ Hp Hb|db s bid _ _ Hb];
    constructor; cbn [posts genres books classified_posts saved_skeets
                      add_post add_genre add_book add_classified_post
                      add_saved_skeet backfill];
    try ref_solve.
  - intros x Hx. apply in_map_iff in Hx as (y & <- & Hy).
    unfold set_book_id. destruct (Z.eqb _ _); cbn; auto.
  - intros x y Hx Hy. apply in_map_iff in Hx as (z & <- & Hz).
    unfold set_book_id in Hy. destruct (Z.eqb _ _); cbn in Hy; eauto.
    now injection Hy as <-.
Qed.

Lemma refs_ok_writes db db1 : writes db db1 -> refs_ok db -> refs_ok db1.
Proof.
  induction 1 as [|db db1 db2 W _ IH]; [trivial|].
  intros H. apply IH. now apply (refs_ok_write db).
Qed.

End Invariants.

Section Growth.

Lemma filled_refl s : filled s s.
Proof. unfold filled. auto. Qed.

Lemma filled_trans s1 s2 s3 : filled s1 s2 -> filled s2 s3 -> filled s1 s3.
Proof.
  unfold filled. intros (I1 & P1 & U1 & B1) (I2 & P2 & U2 & B2).
  repeat split; try congruence.
  destruct B1 as [B1|B1]; [|now right].
  destruct B2 as [B2|B2]; [left|right]; congruence.
Qed.

Lemma Forall2_filled_refl l : Forall2 filled l l.
Proof. induction l; constructor; auto using filled_refl. Qed.

Lemma Forall2_filled_trans l1 l2 l3 :
  Forall2 filled l1 l2 -> Forall2 filled l2 l3 -> Forall2 filled l1 l3.
Proof.
  intros H; revert l3; induction H as [|x y l1 l2 Hxy _ IH]; intros l3 H3;
    inversion_clear H3; constructor; eauto using filled_trans.
Qed.

Lemma grows_refl db : grows db db.
Proof.
  constructor; try (exists []; now rewrite app_nil_r).
  exists (saved_skeets db), []. rewrite app_nil_r.
  split; [reflexivity|apply Forall2_filled_refl].
Qed.

Lemma grows_trans db db1 db2 : grows db db1 -> grows db1 db2 -> grows db db2.
Proof.
  intros [[p1 P1] [g1 G1] [b1 B1] [c1 C1] (o1 & m1 & S1 & F1)]
         [[p2 P2] [g2 G2] [b2 B2] [c2 C2] (o2 & m2 & S2 & F2)].
  constructor.
  - exists (p1 ++ p2)%list. now rewrite P2, P1, app_assoc.
  - exists (g1 ++ g2)%list. now rewrite G2, G1, app_assoc.
  - exists (b1 ++ b2)%list. now rewrite B2, B1, app_assoc.
  - exists (c1 ++ c2)%list. now rewrite C2, C1, app_assoc.
  - rewrite S1 in F2. apply Forall2_app_inv_l in F2 as (oa & ob & Fa & Fb & ->).
    exists oa, (ob ++ m2)%list. split; [now rewrite S2, app_assoc|].
    now apply (Forall2_filled_trans _ o1).
Qed.

Lemma NoDup_map_eq {A K} (key : A -> K) l x y :
  NoDup (map key l) -> In x l -> In y l -> key x = key y -> x = y.
Proof.
  induction l as [|z l IH]; [intros _ []|].
  cbn [map]. intros Hnd Hx Hy E. inversion_clear Hnd as [|? ? Hz Hl].
  destruct Hx as [->|Hx], Hy as [->|Hy]; trivial.
  - exfalso. apply Hz. rewrite E. now apply in_map.
  - exfalso. apply Hz. rewrite <- E. now apply in_map.
  - now apply IH.
Qed.

Lemma grows_write db db1 : keys_ok db -> write db db1 -> grows db db1.
Proof.
  intros Hk W.
  destruct W as [db post _ _|db genre _ _|db cp _ _ _
                |db book _ _ _|db s _ _ _ _ _|db s bid Hsel Hnone _];
    constructor; cbn [posts genres books classified_posts saved_skeets
                      add_post add_genre add_book add_classified_post
                      add_saved_skeet backfill];
    try (eexists; reflexivity);
    try (exists []; now rewrite app_nil_r);
    try (exists (saved_skeets db), []; rewrite app_nil_r;
         split; [reflexivity|apply Forall2_filled_refl]).
  - exists (saved_skeets db), [s].
    split; [reflexivity|apply Forall2_filled_refl].
  - exists (map (set_book_id (SavedSkeet.id s) bid) (saved_skeets db)), [].
    rewrite app_nil_r. split; [reflexivity|].
    unfold select_saved_skeet in Hsel. apply find_some in Hsel as [Hin _].
    pose proof (skeet_ids db Hk) as Hnd.
    assert (Hall : forall x, In x (saved_skeets db) ->
                     filled x (set_book_id (SavedSkeet.id s) bid x)).
    { intros x Hx. unfold set_book_id.
      destruct (Z.eqb_spec (SavedSkeet.id x) (SavedSkeet.id s)) as [E|];
        [|apply filled_refl].
      rewrite (NoDup_map_eq SavedSkeet.id _ x s Hnd Hx Hin E).
      unfold filled; cbn. auto. }
    clear - Hall. induction (saved_skeets db) as [|x l IH]; constructor.
    + apply Hall. now left.
    + apply IH. intros y Hy. apply Hall. now right.
Qed.

Lemma grows_writes db db1 : writes db db1 -> keys_ok db -> grows db db1.
Proof.
  induction 1 as [|db db1 db2 W _ IH]; [intros _; apply grows_refl|].
  intros Hk. apply (grows_trans db db1); [now apply grows_write|].
  apply IH. now apply (keys_ok_write db).
Qed.

End Growth.

(** X5. Whatever the capabilities answer, and whether the batch ends or
    fails, [classify_and_save_posts] keeps every key unique: no two rows of
    a table share their id, no two Posts their text, no two Genres their
    name, no two Books their (title, author), no two SavedSkeets their
    (user_id, post_id), no two ClassifiedPosts their (post_id, genre_id). *)
Theorem classify_and_save_posts_keeps_keys :
  forall zs qa iso raw_posts db,
    keys_ok db ->
    keys_ok (exec (classify_and_save_posts zs qa iso raw_posts) db).
Proof.
  intros zs qa iso raw_posts db.
  apply keys_ok_writes, classify_and_save_posts_writes.
Qed.

(** X6. Whatever the capabilities answer, and whether the batch ends or
    fails, [classify_and_save_posts] keeps every reference valid: the genre
    of a Book, the post and the genre of a ClassifiedPost, the post of a
    SavedSkeet and its book when it has one are all stored rows. *)
Theorem classify_and_save_posts_keeps_refs :
  forall zs qa iso raw_posts db,
    refs_ok db ->
    refs_ok (exec (classify_and_save_posts zs qa iso raw_posts) db).
Proof.
  intros zs qa iso raw_posts db.
  apply refs_ok_writes, classify_and_save_posts_writes.
Qed.

(** X7. [classify_and_save_posts] deletes nothing and rewrites nothing but
    a null book_id: the Post, Genre, Book and ClassifiedPost rows of the
    store stay first and unchanged in their tables, and every SavedSkeet row
    stays in its place with its id, post and user, and with its book unless
    it had none. *)
Theorem classify_and_save_posts_grows :
  forall zs qa iso raw_posts db,
    keys_ok db ->
    grows db (exec (classify_and_save_posts zs qa iso raw_posts) db).
Proof.
  intros zs qa iso raw_posts db.
  apply grows_writes, classify_and_save_posts_writes.
Qed.

Lemma classify_and_save_posts_keeps_keys_witness :
  keys_ok
    (exec (classify_and_save_posts zs_stub (qa_stub "Frank Herbert" "Dune")
             iso_stub [raw_post "first"; raw_post "third"]) empty_db).
Proof.
  apply classify_and_save_posts_keeps_keys.
  constructor; constructor.
Defined.

Lemma classify_and_save_posts_keeps_refs_witness :
  refs_ok
    (exec (classify_and_save_posts zs_stub (qa_stub "Frank Herbert" "Dune")
             iso_stub [raw_post "first"; raw_post "third"]) empty_db).
Proof.
  apply classify_and_save_posts_keeps_refs.
  constructor; cbn; intros; contradiction.
Defined.

Lemma classify_and_save_posts_grows_witness :
  grows empty_db
    (exec (classify_and_save_posts zs_stub (qa_stub "Frank Herbert" "Dune")
             iso_stub [raw_post "first"; raw_post "third"]) empty_db).
Proof.
  apply classify_and_save_posts_grows.
  constructor; constructor.
Defined.

(** ** When a post has its rows *)

Section Again.

Lemma find_app_some {A} (f : A -> bool) l m x :
  find f l = Some x -> find f (l ++ m) = Some x.
Proof.
  induction l as [|y l IH]; [discriminate|].
  cbn [app find]. destruct (f y); [trivial|exact IH].
Qed.

Lemma save_genre_noop self g db post genre cp :
  select_post (post_text self) db = Some post ->
  select_genre g db = Some genre ->
  select_classified (Post.id post) (Genre.id genre) db = Some cp ->
  save_genre_to_db self g db = (db, Ok tt).
Proof.
  intros Hp Hg Hc. unfold save_genre_to_db.
  rewrite bind_run, (post_of_found _ _ _ Hp), bind_run,
    (genre_of_found _ _ _ Hg).
  unfold add_classified. now rewrite Hc.
Qed.

Lemma save_genre_done self g db :
  exists post genre cp,
    let db1 := exec (save_genre_to_db self g) db in
    select_post (post_text self) db1 = Some post
    /\ select_genre g db1 = Some genre
    /\ select_classified (Post.id post) (Genre.id genre) db1 = Some cp.
Proof.
  unfold exec, save_genre_to_db. rewrite bind_run.
  destruct (post_of_spec self db) as (post & dbp & -> & Hsel & _).
  rewrite bind_run.
  destruct (genre_of_spec g dbp)
    as (genre & dbg & -> & Hselg & _ & _ & _ & _ & _ & Hp & _).
  exists post, genre. cbv zeta. unfold add_classified.
  destruct (select_classified (Post.id post) (Genre.id genre) dbg) as [cp|]
    eqn:Hc; cbn [fst].
  - exists cp. rewrite (select_post_posts _ dbp dbg Hp). auto.
  - eexists. split; [|split].
    + unfold select_post in *. cbn [posts]. now rewrite Hp.
    + exact Hselg.
    + unfold select_classified in *. cbn [classified_posts].
      rewrite find_snoc, Hc.
      cbn [ClassifiedPost.post_id ClassifiedPost.genre_id].
      rewrite !Z.eqb_refl. reflexivity.
Qed.

Lemma save_book_noop self t a g db genre book :
  truthy t = true ->
  select_genre g db = Some genre ->
  select_book t a db = Some book ->
  save_book_to_db self t a g db = (db, Ok book).
Proof.
  intros Ht Hg Hb. unfold save_book_to_db.
  rewrite bind_run, (genre_of_found _ _ _ Hg), Ht. cbn [negb].
  now rewrite Hb.
Qed.

(** When [save_book_to_db] returns a Book, that Book and the genre are
    found by their keys afterwards. *)
Lemma save_book_ok self t a g db db1 book :
  save_book_to_db self t a g db = (db1, Ok book) ->
  truthy t = true
  /\ select_book t a db1 = Some book
  /\ (exists genre, select_genre g db1 = Some genre)
  /\ posts db1 = posts db
  /\ classified_posts db1 = classified_posts db
  /\ (exists more, genres db1 = (genres db ++ more)%list).
Proof.
  unfold save_book_to_db. rewrite bind_run.
  destruct (genre_of_spec g db)
    as (genre & dbg & -> & Hselg & _ & _ & _ & Hg & _ & Hp & _ & Hc & _).
  destruct (truthy t); cbn [negb]; [|discriminate].
  destruct (select_book t a dbg) as [b|] eqn:Hb.
  - intros [= <- <-]. repeat split; eauto.
  - destruct a as [a|]; [|discriminate]. intros [= <- <-].
    repeat split; cbn [posts classified_posts genres]; eauto.
    unfold select_book in *. cbn [books]. rewrite find_snoc, Hb.
    cbn [Book.title Book.author]. now rewrite !String.eqb_refl.
Qed.

End Again.

Section ProcessAgain.

Variable zs : string -> list string -> external (list string).
Variable qa : string -> string -> external (option (option string)).
Variable iso : string -> option datetime.

Lemma write_selects db db1 :
  write db db1 ->
  (forall text p, select_post text db = Some p -> select_post text db1 = Some p)
  /\ (forall g x, select_genre g db = Some x -> select_genre g db1 = Some x)
  /\ (forall p g x, select_classified p g db = Some x ->
                    select_classified p g db1 = Some x).
Proof.
  intros W. unfold select_post, select_genre, select_classified.
  destruct W; cbn [posts genres classified_posts add_post add_genre add_book
                   add_classified_post add_saved_skeet backfill];
    repeat split; intros; trivial; now apply find_app_some.
Qed.

Lemma writes_selects db db1 :
  writes db db1 ->
  (forall text p, select_post text db = Some p -> select_post text db1 = Some p)
  /\ (forall g x, select_genre g db = Some x -> select_genre g db1 = Some x)
  /\ (forall p g x, select_classified p g db = Some x ->
                    select_classified p g db1 = Some x).
Proof.
  induction 1 as [|db db1 db2 W _ (IH1 & IH2 & IH3)]; [auto|].
  destruct (write_selects db db1 W) as (H1 & H2 & H3).
  repeat split; intros; auto.
Qed.

Lemma extract_entities_singletons self v :
  extract_entities qa self = Ok v -> exists ca ct, v = ([ca], [ct]).
Proof.
  unfold extract_entities.
  destruct (extract_author qa self); [|discriminate].
  destruct (extract_book_title qa self); [|discriminate].
  intros [= <-]. eauto.
Qed.

End ProcessAgain.

(** ** Posts are told apart by their text *)

(** X9. A Post is looked up by its text alone: once a classifier has stored
    its post, [save_genre_to_db] and [save_skeet_to_db] of any classifier
    with the same text (whatever its handle, uri, like count or timestamp)
    add no Post row and write under the Post that is stored. *)
Theorem same_text_same_post :
  forall self self' g g' book db,
    post_text self' = post_text self ->
    let db1 := exec (save_genre_to_db self g) db in
    posts (exec (save_genre_to_db self' g') db1) = posts db1
    /\ posts (exec (save_skeet_to_db self' book) db1) = posts db1
    /\ post_key self' db1 = post_key self db1.
Proof.
  intros self self' g g' book db Htext db1.
  destruct (save_genre_done self g db) as (p & ge & cp & Hp & _).
  fold db1 in Hp. cbv zeta in Hp.
  assert (Hp' : select_post (post_text self') db1 = Some p)
    by now rewrite Htext.
  repeat split.
  - unfold exec, save_genre_to_db.
    rewrite bind_run, (post_of_found _ _ _ Hp'), bind_run.
    destruct (genre_of_spec g' db1)
      as (genre & dbg & -> & _ & _ & _ & _ & _ & _ & Hposts & _).
    destruct (add_classified_spec (Post.id p) (Genre.id genre) dbg)
      as (dbc & -> & _ & Hposts' & _).
    cbn [fst]. congruence.
  - unfold exec, save_skeet_to_db.
    rewrite bind_run, (post_of_found _ _ _ Hp').
    destruct (select_saved_skeet (Post.id p) db1) as [s|]; [|reflexivity].
    now destruct book, (SavedSkeet.book_id s).
  - unfold post_key, outcome.
    now rewrite (post_of_found _ _ _ Hp'), (post_of_found _ _ _ Hp).
Qed.

Lemma same_text_same_post_witness :
  let self := some_classifier "I loved Dune!" in
  let self' := {| post_text := "I loved Dune!"; handle := "other";
                  display_name := "O"; like_count := 0%Z;
                  timestamp := 9%Z; uri := "at://2" |} in
  let db1 := exec (save_genre_to_db self "fantasy") empty_db in
  map Post.uri (posts (exec (save_skeet_to_db self' None) db1)) = ["at://1"].
Proof.
  intros self self' db1.
  destruct (same_text_same_post self self' "fantasy" "romance" None empty_db
              eq_refl) as (_ & H & _).
  fold db1 in H. rewrite H. reflexivity.
Defined.

(** ** A title without an author *)

(** X10. A Book cannot be stored without an author ([author: str] in the
    schema): when a post is cleaned to a non-empty title and a null author,
    processing it raises the integrity error of the commit of
    [save_book_to_db]; the Post, the Genre and the ClassifiedPost are
    stored by then, and no Book and no SavedSkeet is written for it. *)
Theorem title_without_author_fails :
  forall zs qa iso post ts genre author book_title c t db,
    iso (Raw.timestamp post) = Some ts ->
    classify_genre zs (classifier_of post ts) = Ok genre ->
    extract_author qa (classifier_of post ts) = Ok author ->
    extract_book_title qa (classifier_of post ts) = Ok book_title ->
    clean_author author = None ->
    clean_book_title author book_title = Some (String c t) ->
    process_post zs qa iso post db
    = (exec (save_genre_to_db (classifier_of post ts) genre) db,
       Raise (IntegrityError "NOT NULL constraint failed: book.author")).
Proof.
  intros zs qa iso post ts genre author book_title c t db Hts Hg Ha Ht Hca Hct.
  unfold process_post. rewrite Hts. unfold lift.
  rewrite bind_run, Hg, bind_run, save_genre_to_db_returns, bind_run.
  rewrite (extract_entities_returns qa _ _ _ Ha Ht), Hca, Hct.
  cbn [fst snd combine]. rewrite bind_run, save_entities_one.
  unfold save_entity. rewrite bind_run.
  destruct (save_genre_done (classifier_of post ts) genre db)
    as (p & g & cp & _ & Hsel & _). cbv zeta in Hsel.
  unfold save_book_to_db.
  rewrite bind_run, (genre_of_found _ _ _ Hsel). cbn [truthy negb].
  unfold select_book.
  assert (find (fun b => String.eqb (Book.title b) (String c t) && false)
               (books (exec (save_genre_to_db (classifier_of post ts) genre) db))
          = None) as ->; [|reflexivity].
  induction (books _) as [|b l IH]; [reflexivity|].
  cbn [find]. now rewrite andb_false_r.
Qed.

Lemma title_without_author_fails_witness :
  let run := process_post zs_stub (qa_stub "unknown" "Dune") iso_stub
               (raw_post "I loved Dune!") in
  outcome run empty_db
  = Raise (IntegrityError "NOT NULL constraint failed: book.author")
  /\ saved_skeets (exec run empty_db) = []
  /\ map Post.text (posts (exec run empty_db)) = ["I loved Dune!"].
Proof.
  intros run.
  pose proof (title_without_author_fails zs_stub (qa_stub "unknown" "Dune")
                iso_stub (raw_post "I loved Dune!") 0%Z "fantasy"
                "unknown" "Dune" "D" "une" empty_db
                eq_refl eq_refl eq_refl eq_refl eq_refl eq_refl) as H.
  unfold outcome, exec, run. rewrite H. repeat split.
Defined.

(** ** [fetch_classified_posts] *)

Section Grouping.

Variable zs : string -> list string -> external (list string).
Variable iso : string -> option datetime.

Lemma lookup_setdefault_append d k post g :
  lookup (setdefault_append d k post) g
  = if String.eqb k g
    then Some (match lookup d g with
               | Some ps => ps ++ [post]
               | None => [post]
               end)%list
    else lookup d g.
Proof.
  induction d as [|[k' ps] d IH]; cbn [setdefault_append lookup].
  - destruct (String.eqb k g); reflexivity.
  - destruct (String.eqb_spec k' k) as [->|Hk]; cbn [lookup].
    + destruct (String.eqb k g); reflexivity.
    + rewrite IH. destruct (String.eqb_spec k' g) as [->|Hg]; [|reflexivity].
      destruct (String.eqb_spec k g); [congruence|reflexivity].
Qed.

Lemma keys_setdefault_append d k post :
  map fst (setdefault_append d k post)
  = match lookup d k with
    | Some _ => map fst d
    | None => (map fst d ++ [k])%list
    end.
Proof.
  induction d as [|[k' ps] d IH]; [reflexivity|].
  cbn [setdefault_append lookup].
  destruct (String.eqb k' k); [reflexivity|].
  cbn [map fst]. rewrite IH. now destruct (lookup d k).
Qed.

Lemma lookup_none_keys d k : lookup d k = None -> ~ In k (map fst d).
Proof.
  induction d as [|[k' ps] d IH]; [intros _ []|].
  cbn [lookup map fst]. destruct (String.eqb_spec k' k); [discriminate|].
  intros H [E|Hin]; [congruence|now apply IH].
Qed.

Lemma lookup_in d k ps : lookup d k = Some ps -> In (k, ps) d.
Proof.
  induction d as [|[k' ps'] d IH]; [discriminate|].
  cbn [lookup]. destruct (String.eqb_spec k' k) as [->|].
  - intros [= ->]. now left.
  - intros H. right. now apply IH.
Qed.

Lemma in_lookup d k ps :
  NoDup (map fst d) -> In (k, ps) d -> lookup d k = Some ps.
Proof.
  induction d as [|[k' ps'] d IH]; [intros _ []|].
  cbn [map fst lookup]. intros Hnd Hin.
  inversion_clear Hnd as [|? ? Hk Hd].
  destruct Hin as [[= -> ->]|Hin]; [now rewrite String.eqb_refl|].
  destruct (String.eqb_spec k' k) as [->|]; [|now apply IH].
  exfalso. apply Hk. now apply (in_map fst _ (k, ps)).
Qed.

Lemma classify_posts_groups rest :
  forall d seen out,
    groups zs iso d seen ->
    classify_posts zs iso rest d = Ok out ->
    groups zs iso out (seen ++ rest).
Proof.
  induction rest as [|post rest IH]; intros d seen out Hd.
  - cbn. intros [= <-]. now rewrite app_nil_r.
  - cbn [classify_posts].
    destruct (genre_of_post zs iso post) as [[c k]|e] eqn:Hk; [|discriminate].
    intros H.
    replace (seen ++ post :: rest)%list with ((seen ++ [post]) ++ rest)%list
      by now rewrite <- app_assoc.
    apply (IH _ _ _) with (2 := H). destruct Hd as [Hnd Hl]. split.
    + rewrite keys_setdefault_append.
      destruct (lookup d k) eqn:E; [exact Hnd|].
      apply NoDup_snoc; [exact Hnd|now apply lookup_none_keys].
    + intros g. rewrite lookup_setdefault_append, filter_snoc, Hl.
      assert (classified_as zs iso g post = String.eqb k g) as ->
        by (unfold classified_as; now rewrite Hk).
      destruct (String.eqb k g); [|now rewrite app_nil_r].
      now destruct (filter (classified_as zs iso g) seen).
Qed.

Lemma classify_posts_ok raw_posts out :
  classify_posts zs iso raw_posts [] = Ok out -> groups zs iso out raw_posts.
Proof.
  intros H. apply (classify_posts_groups raw_posts [] [] out); [|exact H].
  split; [constructor|reflexivity].
Qed.

Lemma classify_posts_raises seen post rest e :
  forall d,
    (forall p, In p seen -> exists v, genre_of_post zs iso p = Ok v) ->
    genre_of_post zs iso post = Raise e ->
    classify_posts zs iso (seen ++ post :: rest) d = Raise e.
Proof.
  induction seen as [|p seen IH]; intros d Hseen Hpost.
  - cbn. now rewrite Hpost.
  - cbn [app classify_posts].
    destruct (Hseen p (or_introl eq_refl)) as ([c k] & ->).
    apply IH; [|exact Hpost]. intros q Hq. apply Hseen. now right.
Qed.

End Grouping.

(** X11. When [fetch_classified_posts] is asked for every genre and
    returns, it returns a partition of the fetched posts: each genre
    appears once, with the posts the classifier put in it, all of them and
    in the order they were fetched, and no genre comes without a post. *)
Theorem fetch_classified_posts_partitions :
  forall zs iso raw_posts groups,
    fetch_classified_posts zs iso None raw_posts = Reply (AllGenres groups) ->
    NoDup (map fst groups)
    /\ (forall g ps, In (g, ps) groups ->
          ps <> [] /\ ps = filter (classified_as zs iso g) raw_posts)
    /\ (forall post, In post raw_posts ->
          exists g ps, In (g, ps) groups /\ In post ps).
Proof.
  intros zs iso raw_posts d. unfold fetch_classified_posts.
  destruct (classify_posts zs iso raw_posts []) as [out|e] eqn:H;
    [|discriminate].
  intros [= <-]. destruct (classify_posts_ok zs iso _ _ H) as [Hnd Hl].
  split; [exact Hnd|]. split.
  - intros g ps Hin. pose proof (in_lookup _ _ _ Hnd Hin) as E.
    rewrite Hl in E. destruct (filter _ raw_posts); [discriminate|].
    injection E as <-. split; [discriminate|reflexivity].
  - intros post Hin.
    assert (Hok : exists c k, genre_of_post zs iso post = Ok (c, k)).
    { clear - H Hin. revert H. generalize (@nil (string * list Raw.t)).
      induction raw_posts as [|p l IH]; [destruct Hin|]. intros d0.
      cbn [classify_posts].
      destruct (genre_of_post zs iso p) as [[c k]|e] eqn:E; [|discriminate].
      destruct Hin as [->|Hin]; [eauto|]. intros H. eapply IH; eauto. }
    destruct Hok as (c & k & Hk).
    assert (Hf : In post (filter (classified_as zs iso k) raw_posts)).
    { apply filter_In. split; [exact Hin|].
      unfold classified_as. rewrite Hk. apply String.eqb_refl. }
    specialize (Hl k). destruct (filter _ raw_posts) as [|q qs] eqn:Ef;
      [destruct Hf|].
    exists k, (q :: qs). split; [now apply lookup_in|exact Hf].
Qed.

Lemma fetch_classified_posts_partitions_witness :
  fetch_classified_posts zs_stub iso_stub None
    [raw_post "first"; raw_post "third"]
  = Reply (AllGenres [("fantasy", [raw_post "first"; raw_post "third"])])
  /\ NoDup ["fantasy"].
Proof.
  split; [reflexivity|].
  exact (proj1 (fetch_classified_posts_partitions zs_stub iso_stub
                  [raw_post "first"; raw_post "third"] _ eq_refl)).
Defined.

(** X12. Asked for one genre, [fetch_classified_posts] returns the fetched
    posts that the classifier put in that genre, in the order they were
    fetched, and fails with 404 when there is none; an empty genre is no
    genre. *)
Theorem fetch_classified_posts_one_genre :
  forall zs iso genre raw_posts d,
    classify_posts zs iso raw_posts [] = Ok d ->
    truthy genre = true ->
    fetch_classified_posts zs iso (Some genre) raw_posts
    = match filter (classified_as zs iso genre) raw_posts with
      | [] => Fail (HTTPException 404 (fmt "Genre '" genre "' not found"))
      | posts => Reply (OneGenre genre posts)
      end
    /\ fetch_classified_posts zs iso (Some "") raw_posts
       = fetch_classified_posts zs iso None raw_posts.
Proof.
  intros zs iso genre raw_posts d H Hg. split; [|reflexivity].
  unfold fetch_classified_posts. rewrite H.
  destruct genre as [|c g]; [discriminate|].
  destruct (classify_posts_ok zs iso _ _ H) as [_ Hl]. rewrite Hl.
  now destruct (filter _ raw_posts).
Qed.

Lemma fetch_classified_posts_one_genre_witness :
  fetch_classified_posts zs_stub iso_stub (Some "romance")
    [raw_post "first"; raw_post "third"]
  = Fail (HTTPException 404 "Genre 'romance' not found").
Proof.
  exact (proj1 (fetch_classified_posts_one_genre zs_stub iso_stub "romance"
                  [raw_post "first"; raw_post "third"] _ eq_refl eq_refl)).
Defined.

(** X13. [fetch_classified_posts] returns all or nothing: when the
    timestamp or the classification of one fetched post fails, the call
    fails with that exception, whatever genre was asked for and however
    many posts were classified before. *)
Theorem fetch_classified_posts_all_or_nothing :
  forall zs iso genre seen post rest e,
    (forall p, In p seen -> exists v, genre_of_post zs iso p = Ok v) ->
    genre_of_post zs iso post = Raise e ->
    fetch_classified_posts zs iso genre (seen ++ post :: rest)
    = Fail (Uncaught e).
Proof.
  intros zs iso genre seen post rest e Hseen Hpost.
  unfold fetch_classified_posts.
  now rewrite (classify_posts_raises zs iso seen post rest e [] Hseen Hpost).
Qed.

Lemma fetch_classified_posts_all_or_nothing_witness :
  fetch_classified_posts zs_stub iso_stub None
    [raw_post "first"; raw_post "second"; raw_post "third"]
  = Fail (Uncaught (ExternalServiceError "503")).
Proof.
  apply (fetch_classified_posts_all_or_nothing zs_stub iso_stub None
           [raw_post "first"] (raw_post "second") [raw_post "third"]).
  - intros p [<-|[]]. eexists. reflexivity.
  - reflexivity.
Defined.

(** ** Saving and unsaving a post (src/post.py) *)

Section Shelf.

Lemma select_saved_keyed post_id user_id db :
  select_saved post_id user_id db = hd_error (skeets_keyed user_id post_id db).
Proof.
  unfold select_saved, skeets_keyed.
  induction (saved_skeets db) as [|s l IH]; [reflexivity|].
  cbn [find filter]. rewrite (andb_comm (Z.eqb (SavedSkeet.user_id s) user_id)).
  destruct (_ && _); [reflexivity|exact IH].
Qed.

(** [create_post] returns the first Post of the uri, which the user has
    saved afterwards; it writes at most one Post and one SavedSkeet without
    a book, after the rows that are there. *)
Lemma create_post_spec post user_id db :
  exists p db1,
    create_post post user_id db = (db1, Reply p)
    /\ select_post_by_uri (PostIn.uri post) db1 = Some p
    /\ In p (posts db1)
    /\ (exists s, select_saved (Post.id p) user_id db1 = Some s)
    /\ (posts db1 = posts db
        \/ select_post_by_uri (PostIn.uri post) db = None
           /\ posts db1 = (posts db ++ [p])%list
           /\ Post.id p = next_id (map Post.id (posts db))
           /\ Post.text p = PostIn.text post)
    /\ (saved_skeets db1 = saved_skeets db
        \/ select_saved (Post.id p) user_id db = None
           /\ saved_skeets db1
              = (saved_skeets db
                 ++ [{| SavedSkeet.id :=
                          next_id (map SavedSkeet.id (saved_skeets db));
                        SavedSkeet.post_id := Post.id p;
                        SavedSkeet.user_id := user_id;
                        SavedSkeet.book_id := None |}])%list)
    /\ genres db1 = genres db /\ books db1 = books db
    /\ classified_posts db1 = classified_posts db.
Proof.
  unfold create_post.
  set (newp := {| Post.id := next_id (map Post.id (posts db));
                  Post.handle := PostIn.handle post;
                  Post.display_name := PostIn.display_name post;
                  Post.text := PostIn.text post;
                  Post.timestamp := PostIn.timestamp post;
                  Post.like_count := PostIn.like_count post;
                  Post.uri := PostIn.uri post |}).
  assert (Hstep : forall dbp p,
            select_post_by_uri (PostIn.uri post) dbp = Some p ->
            saved_skeets dbp = saved_skeets db ->
            exists db1,
              match select_saved (Post.id p) user_id dbp with
              | Some _ => (dbp, Reply p)
              | None =>
                  (add_saved_skeet dbp
                     {| SavedSkeet.id :=
                          next_id (map SavedSkeet.id (saved_skeets dbp));
                        SavedSkeet.post_id := Post.id p;
                        SavedSkeet.user_id := user_id;
                        SavedSkeet.book_id := None |}, Reply p)
              end = (db1, Reply p)
              /\ select_post_by_uri (PostIn.uri post) db1 = Some p
              /\ posts db1 = posts dbp
              /\ (exists s, select_saved (Post.id p) user_id db1 = Some s)
              /\ (saved_skeets db1 = saved_skeets db
                  \/ select_saved (Post.id p) user_id db = None
                     /\ saved_skeets db1
                        = (saved_skeets db
                           ++ [{| SavedSkeet.id :=
                                    next_id (map SavedSkeet.id (saved_skeets db));
                                  SavedSkeet.post_id := Post.id p;
                                  SavedSkeet.user_id := user_id;
                                  SavedSkeet.book_id := None |}])%list)
              /\ genres db1 = genres dbp /\ books db1 = books dbp
              /\ classified_posts db1 = classified_posts dbp).
  { intros dbp p Hp Hs.
    destruct (select_saved (Post.id p) user_id dbp) as [s|] eqn:E.
    - exists dbp. repeat split; eauto.
    - eexists. split; [reflexivity|]. repeat split; trivial.
      + unfold select_saved in *. cbn [saved_skeets add_saved_skeet].
        rewrite find_snoc, E. cbn [SavedSkeet.post_id SavedSkeet.user_id].
        rewrite !Z.eqb_refl. cbn [andb]. eauto.
      + right. cbn [saved_skeets add_saved_skeet]. rewrite Hs. split; trivial.
        unfold select_saved in *. now rewrite <- Hs. }
  destruct (select_post_by_uri (PostIn.uri post) db) as [p|] eqn:Hp.
  - destruct (Hstep db p Hp eq_refl)
      as (db1 & E & H1 & H2 & H3 & H4 & H5 & H6 & H7).
    exists p, db1. rewrite E. repeat split; trivial.
    + rewrite H2. unfold select_post_by_uri in Hp. apply find_some in Hp. tauto.
    + now left.
  - assert (Hp' : select_post_by_uri (PostIn.uri post) (add_post db newp)
                  = Some newp).
    { unfold select_post_by_uri in *. cbn [posts add_post].
      rewrite find_snoc, Hp. cbn [Post.uri newp]. now rewrite String.eqb_refl. }
    destruct (Hstep (add_post db newp) newp Hp' eq_refl)
      as (db1 & E & H1 & H2 & H3 & H4 & H5 & H6 & H7).
    exists newp, db1. rewrite E. repeat split; trivial.
    + rewrite H2. cbn [posts add_post]. apply in_or_app. right. now left.
    + right. rewrite H2. repeat split.
Qed.

Lemma create_post_again post user_id db p db1 :
  create_post post user_id db = (db1, Reply p) ->
  create_post post user_id db1 = (db1, Reply p).
Proof.
  intros E.
  destruct (create_post_spec post user_id db)
    as (p' & db1' & E' & Hsel & _ & (s & Hs) & _).
  rewrite E in E'. injection E' as <- <-.
  unfold create_post. now rewrite Hsel, Hs.
Qed.

Lemma skeets_unique_create_post post user_id db :
  skeets_unique db -> skeets_unique (fst (create_post post user_id db)).
Proof.
  intros Hu u q.
  destruct (create_post_spec post user_id db)
    as (p & db1 & -> & _ & _ & _ & _ & Hs & _). cbn [fst].
  destruct Hs as [Hs|[Hnone Hs]].
  - rewrite (skeets_keyed_skeets _ _ _ _ Hs). apply Hu.
  - unfold skeets_keyed. rewrite Hs, filter_snoc, length_app.
    cbn [SavedSkeet.user_id SavedSkeet.post_id].
    destruct (Z.eqb_spec user_id u) as [<-|]; cbn [andb];
      [|specialize (Hu u q); unfold skeets_keyed in Hu; simpl; lia].
    destruct (Z.eqb_spec (Post.id p) q) as [<-|];
      [|specialize (Hu user_id q); unfold skeets_keyed in Hu; simpl; lia].
    rewrite select_saved_keyed in Hnone. unfold skeets_keyed in Hnone.
    destruct (filter _ (saved_skeets db)); [simpl; lia|discriminate].
Qed.

(** After [unsave_post] has deleted the SavedSkeet it found, the user has
    none for the post, when there was at most one. *)
Lemma unsave_post_spec post_id user_id db s :
  skeets_unique db ->
  select_saved post_id user_id db = Some s ->
  let db1 := delete_saved_skeet db (SavedSkeet.id s) in
  unsave_post post_id user_id db = (db1, Reply "Post unsaved successfully")
  /\ select_saved post_id user_id db1 = None
  /\ posts db1 = posts db.
Proof.
  intros Hu Hs. cbv zeta. unfold unsave_post. rewrite Hs.
  split; [reflexivity|]. split; [|reflexivity].
  rewrite select_saved_keyed in *. specialize (Hu user_id post_id).
  unfold skeets_keyed in *. cbn [saved_skeets delete_saved_skeet].
  induction (saved_skeets db) as [|x l IH]; [reflexivity|].
  cbn [filter] in *.
  destruct (Z.eqb (SavedSkeet.user_id x) user_id
            && Z.eqb (SavedSkeet.post_id x) post_id) eqn:Hx.
  - cbn [hd_error] in Hs. injection Hs as ->.
    rewrite Z.eqb_refl. cbn [negb].
    cbn [length] in Hu. destruct (filter _ l) eqn:Hl; [|simpl in Hu; lia].
    clear - Hl. induction l as [|y l IH]; [reflexivity|].
    cbn [filter] in *.
    destruct (Z.eqb (SavedSkeet.user_id y) user_id
              && Z.eqb (SavedSkeet.post_id y) post_id) eqn:Hy;
      [discriminate|].
    destruct (negb _); cbn [filter]; [rewrite Hy|]; now apply IH.
  - destruct (negb _); cbn [filter]; [rewrite Hx|]; now apply IH.
Qed.

Lemma get_post_unsaved post_id user_id db :
  select_saved post_id user_id db = None ->
  get_post post_id user_id db = Fail (HTTPException 404 "Post not found.").
Proof.
  intros Hnone. unfold get_post.
  assert (find (fun p =>
            Z.eqb (Post.id p) post_id
            && existsb (fun s => Z.eqb (SavedSkeet.post_id s) (Post.id p)
                                 && Z.eqb (SavedSkeet.user_id s) user_id)
                       (saved_skeets db)) (posts db) = None) as ->;
    [|reflexivity].
  induction (posts db) as [|p l IH]; [reflexivity|].
  cbn [find]. destruct (Z.eqb_spec (Post.id p) post_id) as [->|];
    [|exact IH].
  cbn [andb].
  assert (existsb (fun s => Z.eqb (SavedSkeet.post_id s) post_id
                            && Z.eqb (SavedSkeet.user_id s) user_id)
                  (saved_skeets db) = false) as ->; [|exact IH].
  unfold select_saved in Hnone.
  apply not_true_is_false. intros H. apply existsb_exists in H as (s & Hin & Hs).
  now rewrite (find_none _ _ Hnone s Hin) in Hs.
Qed.

End Shelf.

Lemma find_unique {A} (key : A -> Z) (f : A -> bool) l p :
  NoDup (map key l) -> In p l -> f p = true ->
  (forall q, f q = true -> key q = key p) ->
  find f l = Some p.
Proof.
  intros Hnd Hin Hp Hkey.
  destruct (find f l) as [q|] eqn:E.
  - apply find_some in E as [Hq Hfq].
    now rewrite (NoDup_map_eq key l q p Hnd Hq Hin (Hkey q Hfq)).
  - now rewrite (find_none _ _ E p Hin) in Hp.
Qed.

(** X14. [create_post] is idempotent: it returns the stored Post of the
    uri, and a second call with the same body and user returns the same
    Post and writes nothing.  It leaves the Genre, Book and ClassifiedPost
    tables alone and gives no (user, post) pair a second SavedSkeet. *)
Theorem create_post_idempotent :
  forall post user_id db,
    skeets_unique db ->
    let db1 := fst (create_post post user_id db) in
    (exists p,
       create_post post user_id db = (db1, Reply p)
       /\ create_post post user_id db1 = (db1, Reply p)
       /\ Post.uri p = PostIn.uri post
       /\ In p (posts db1))
    /\ skeets_unique db1
    /\ genres db1 = genres db /\ books db1 = books db
    /\ classified_posts db1 = classified_posts db.
Proof.
  intros post user_id db Hu db1.
  pose proof (skeets_unique_create_post post user_id db Hu) as Hu1.
  fold db1 in Hu1. subst db1.
  destruct (create_post_spec post user_id db)
    as (p & db1 & E & Hsel & Hin & _ & _ & _ & Hg & Hb & Hc).
  rewrite E in *. cbn [fst] in *. repeat split; trivial.
  exists p. repeat split; trivial.
  - now apply (create_post_again post user_id db).
  - unfold select_post_by_uri in Hsel. apply find_some in Hsel as [_ H].
    now apply String.eqb_eq.
Qed.

Lemma create_post_idempotent_witness :
  let body := {| PostIn.handle := "h"; PostIn.display_name := "H";
                 PostIn.text := "I loved Dune!"; PostIn.timestamp := 0%Z;
                 PostIn.like_count := 5%Z; PostIn.uri := "at://1" |} in
  let db1 := fst (create_post body 7 empty_db) in
  skeets_unique db1 /\ map SavedSkeet.user_id (saved_skeets db1) = [7%Z].
Proof.
  intros body db1. split; [|reflexivity].
  assert (Hu : skeets_unique empty_db) by (intros u p; simpl; lia).
  exact (proj1 (proj2 (create_post_idempotent body 7 empty_db Hu))).
Defined.

(** X15. Saving then unsaving: after [create_post], [get_post] returns the
    post to the user; [unsave_post] then removes the save and keeps the
    Post row, after which [get_post] and a second [unsave_post] both fail
    with 404. *)
Theorem create_then_unsave :
  forall post user_id db,
    skeets_unique db ->
    NoDup (map Post.id (posts db)) ->
    let db1 := fst (create_post post user_id db) in
    exists p,
      snd (create_post post user_id db) = Reply p
      /\ get_post (Post.id p) user_id db1 = Reply p
      /\ let db2 := fst (unsave_post (Post.id p) user_id db1) in
         snd (unsave_post (Post.id p) user_id db1)
         = Reply "Post unsaved successfully"
         /\ posts db2 = posts db1
         /\ get_post (Post.id p) user_id db2
            = Fail (HTTPException 404 "Post not found.")
         /\ unsave_post (Post.id p) user_id db2
            = (db2, Fail (HTTPException 404
                            "Saved skeet not found for this user")).
Proof.
  intros post user_id db Hu Hnd db1.
  pose proof (skeets_unique_create_post post user_id db Hu) as Hu1.
  fold db1 in Hu1. subst db1.
  destruct (create_post_spec post user_id db)
    as (p & db1 & E & _ & Hin & (s & Hs) & Hposts & _).
  rewrite E in *. cbn [fst snd] in *. exists p. split; [reflexivity|].
  assert (Hnd1 : NoDup (map Post.id (posts db1))).
  { destruct Hposts as [->|(_ & -> & Hid & _)]; [exact Hnd|].
    rewrite map_app. apply NoDup_snoc; [exact Hnd|].
    cbn [map]. rewrite Hid. apply next_id_not_in. }
  split.
  - unfold get_post.
    rewrite (find_unique Post.id _ (posts db1) p Hnd1 Hin); [reflexivity| |].
    + rewrite Z.eqb_refl. cbn [andb]. apply existsb_exists. exists s.
      unfold select_saved in Hs. apply find_some in Hs. exact Hs.
    + intros q Hq. apply andb_true_iff in Hq as [Hq _]. now apply Z.eqb_eq.
  - destruct (unsave_post_spec (Post.id p) user_id db1 s Hu1 Hs)
      as (-> & Hnone & Hp).
    cbn [fst snd]. repeat split; trivial.
    + now apply get_post_unsaved.
    + unfold unsave_post. now rewrite Hnone.
Qed.

Lemma create_then_unsave_witness :
  let body := {| PostIn.handle := "h"; PostIn.display_name := "H";
                 PostIn.text := "I loved Dune!"; PostIn.timestamp := 0%Z;
                 PostIn.like_count := 5%Z; PostIn.uri := "at://1" |} in
  let db1 := fst (create_post body 7 empty_db) in
  exists p, get_post (Post.id p) 7 db1 = Reply p.
Proof.
  intros body db1.
  assert (Hu : skeets_unique empty_db) by (intros u p; simpl; lia).
  destruct (create_then_unsave body 7 empty_db Hu (NoDup_nil Z))
    as (p & _ & H & _).
  exists p. exact H.
Defined.

(** X16. [get_post] returns a Post only to a user who has saved it: what it
    returns is a stored Post of the id asked for that has a SavedSkeet of
    the user, and otherwise it fails with 404, the post being unsaved by
    the user or not stored. *)
Theorem get_post_only_saved :
  forall post_id user_id db,
    match get_post post_id user_id db with
    | Reply p =>
        In p (posts db) /\ Post.id p = post_id
        /\ exists s, In s (saved_skeets db)
                     /\ SavedSkeet.post_id s = post_id
                     /\ SavedSkeet.user_id s = user_id
    | Fail f =>
        f = HTTPException 404 "Post not found."
        /\ (select_saved post_id user_id db = None
            \/ ~ In post_id (map Post.id (posts db)))
    end.
Proof.
  intros post_id user_id db. unfold get_post.
  destruct (find _ (posts db)) as [p|] eqn:E.
  - apply find_some in E as [Hin H]. apply andb_true_iff in H as [Hid Hex].
    apply Z.eqb_eq in Hid. apply existsb_exists in Hex as (s & Hs & Hm).
    apply andb_true_iff in Hm as [Hp Hu%Z.eqb_eq]. apply Z.eqb_eq in Hp.
    repeat split; trivial. exists s. repeat split; congruence.
  - split; [reflexivity|].
    destruct (select_saved post_id user_id db) as [s|] eqn:Hs; [|now left].
    right. intros Hin. apply in_map_iff in Hin as (p & Hid & Hp).
    pose proof (find_none _ _ E p Hp) as H. cbn beta in H.
    rewrite Hid, Z.eqb_refl in H. cbn [andb] in H.
    apply not_true_iff_false in H. apply H. apply existsb_exists. exists s.
    unfold select_saved in Hs. apply find_some in Hs. exact Hs.
Qed.

(** X17. The pipeline tells Posts apart by text and [create_post] by uri:
    when a post stored by the pipeline is saved through [create_post] under
    a uri that no Post has, a second Post row with the same text is stored,
    and the pipeline goes on writing under the first. *)
Theorem create_post_duplicates_text :
  forall self post user_id db,
    PostIn.text post = post_text self ->
    let db1 := exec (save_skeet_to_db self None) db in
    select_post_by_uri (PostIn.uri post) db1 = None ->
    let db2 := fst (create_post post user_id db1) in
    (exists p1 p2,
       In p1 (posts db2) /\ In p2 (posts db2)
       /\ Post.id p1 <> Post.id p2
       /\ Post.text p1 = post_text self /\ Post.text p2 = post_text self)
    /\ post_key self db2 = post_key self db1.
Proof.
  intros self post user_id db Htext db1 Huri db2.
  destruct (save_skeet_spec self None db) as ((_ & Hp) & _).
  fold db1 in Hp. unfold exec in Hp.
  destruct (post_of_spec self db1) as (p1 & dbp & E & Hsel & _). rewrite E in Hp.
  cbn [fst] in Hp. subst dbp.
  destruct (create_post_spec post user_id db1)
    as (p2 & db2' & E2 & _ & Hin2 & _ & Hposts & _).
  subst db2. rewrite E2. cbn [fst].
  destruct Hposts as [Hsame|(_ & Hposts & Hid & Ht)].
  { exfalso. unfold create_post in E2. rewrite Huri in E2.
    destruct (select_saved _ _ _) in E2; injection E2 as <- _;
      cbn [posts add_post add_saved_skeet] in Hsame;
      apply (f_equal (@length _)) in Hsame; rewrite length_app in Hsame;
      simpl in Hsame; lia. }
  pose proof Hsel as Hfind. unfold select_post in Hfind.
  apply find_some in Hfind as [Hin1 Ht1]. apply String.eqb_eq in Ht1.
  split.
  - exists p1, p2. repeat split; trivial.
    + rewrite Hposts. apply in_or_app. now left.
    + rewrite Hid. apply (in_map Post.id) in Hin1.
      apply next_id_fresh in Hin1. lia.
    + congruence.
  - unfold post_key, outcome. rewrite E. cbn [snd].
    rewrite (post_of_found self db2' p1); [reflexivity|].
    unfold select_post in *. rewrite Hposts. now apply find_app_some.
Qed.

Lemma create_post_duplicates_text_witness :
  let self := some_classifier "I loved Dune!" in
  let body := {| PostIn.handle := "h"; PostIn.display_name := "H";
                 PostIn.text := "I loved Dune!"; PostIn.timestamp := 0%Z;
                 PostIn.like_count := 5%Z; PostIn.uri := "at://other" |} in
  let db1 := exec (save_skeet_to_db self None) empty_db in
  map Post.text (posts (fst (create_post body 7 db1)))
  = ["I loved Dune!"; "I loved Dune!"]
  /\ post_key self (fst (create_post body 7 db1)) = post_key self db1.
Proof.
  intros self body db1. split; [reflexivity|].
  exact (proj2 (create_post_duplicates_text self body 7 empty_db
                  eq_refl eq_refl)).
Defined.

(** ** [fetch_books_by_genre] (src/book.py) *)

Section FoundBooks.

Variable zs : string -> list string -> external (list string).
Variable iso : string -> option datetime.




Lemma collect_books_case qa genre genre' raw_posts :
  PyStr.lower genre = PyStr.lower genre' ->
  forall books,
    collect_books zs qa iso genre raw_posts books
    = collect_books zs qa iso genre' raw_posts books.
Proof.
  intros E. induction raw_posts as [|post rest IH]; intros books;
    [reflexivity|].
  cbn [collect_books]. rewrite E.
  destruct (genre_of_post zs iso post) as [[self k]|e]; [|reflexivity].
  destruct (String.eqb _ _); [|apply IH].
  destruct (extract_entities qa self) as [v|e]; [|reflexivity].
  destruct (first_of (snd v)) as [[[|c t]|]|]; try apply IH;
    destruct (first_of (fst v)); try reflexivity; apply IH.
Qed.

Lemma genre_of_post_text post self k :
  genre_of_post zs iso post = Ok (self, k) -> post_text self = Raw.text post.
Proof.
  unfold genre_of_post. destruct (iso (Raw.timestamp post)); [|discriminate].
  destruct (classify_genre zs _); [|discriminate].
  now intros [= <- _].
Qed.

Lemma extract_entities_ext qa qa' self :
  (forall question, qa question (post_text self) = qa' question (post_text self)) ->
  extract_entities qa self = extract_entities qa' self.
Proof.
  intros H. unfold extract_entities, extract_author, extract_book_title.
  now rewrite !H.
Qed.

Lemma collect_books_ext qa qa' genre raw_posts :
  (forall post question,
     In post raw_posts -> matches zs iso genre post = true ->
     qa question (Raw.text post) = qa' question (Raw.text post)) ->
  forall books,
    collect_books zs qa iso genre raw_posts books
    = collect_books zs qa' iso genre raw_posts books.
Proof.
  induction raw_posts as [|post rest IH]; intros H books; [reflexivity|].
  cbn [collect_books].
  assert (IH' := IH (fun p q Hp => H p q (or_intror Hp))).
  destruct (genre_of_post zs iso post) as [[self k]|e] eqn:Hk; [|reflexivity].
  destruct (String.eqb (PyStr.lower k) (PyStr.lower genre)) eqn:Hm;
    [|apply IH'].
  rewrite (extract_entities_ext qa qa' self).
  - destruct (extract_entities qa' self) as [v|e]; [|reflexivity].
    destruct (first_of (snd v)) as [[[|c t]|]|]; try apply IH';
      destruct (first_of (fst v)); try reflexivity; apply IH'.
  - intros q. rewrite (genre_of_post_text post self k Hk).
    apply H; [now left|]. unfold matches. now rewrite Hk.
Qed.

End FoundBooks.



(** X19. [fetch_books_by_genre] compares genres without regard to case: two
    genre names that differ only in case give the same books. *)
Theorem fetch_books_by_genre_case_blind :
  forall zs qa iso genre genre' raw_posts books,
    PyStr.lower genre = PyStr.lower genre' ->
    fetch_books_by_genre zs qa iso genre raw_posts = Reply books ->
    fetch_books_by_genre zs qa iso genre' raw_posts = Reply books.
Proof.
  intros zs qa iso genre genre' raw_posts books E.
  unfold fetch_books_by_genre.
  rewrite (collect_books_case zs iso qa genre genre' raw_posts E).
  now destruct (collect_books zs qa iso genre' raw_posts []) as [[|b out]|e].
Qed.

Lemma fetch_books_by_genre_case_blind_witness :
  fetch_books_by_genre zs_stub (qa_stub "Frank Herbert" "Dune") iso_stub
    "FANTASY" [raw_post "first"]
  = Reply [{| found_title := "Dune"; found_author := Some "Frank Herbert" |}].
Proof.
  apply (fetch_books_by_genre_case_blind zs_stub
           (qa_stub "Frank Herbert" "Dune") iso_stub "fantasy" "FANTASY");
    reflexivity.
Defined.

(** X20. [fetch_books_by_genre] asks for the author and the title of the
    posts of the genre only: what the question-answering model would say,
    or whether it would fail, about any other post does not change the
    result. *)
Theorem fetch_books_by_genre_asks_matching_only :
  forall zs qa qa' iso genre raw_posts,
    (forall post question,
       In post raw_posts -> matches zs iso genre post = true ->
       qa question (Raw.text post) = qa' question (Raw.text post)) ->
    fetch_books_by_genre zs qa iso genre raw_posts
    = fetch_books_by_genre zs qa' iso genre raw_posts.
Proof.
  intros zs qa qa' iso genre raw_posts H. unfold fetch_books_by_genre.
  now rewrite (collect_books_ext zs iso qa qa' genre raw_posts H).
Qed.

Lemma fetch_books_by_genre_asks_matching_only_witness :
  fetch_books_by_genre zs_stub (qa_stub "Frank Herbert" "Dune") iso_stub
    "romance" [raw_post "first"]
  = fetch_books_by_genre zs_stub (fun _ _ => Failed "down") iso_stub
      "romance" [raw_post "first"].
Proof.
  apply fetch_books_by_genre_asks_matching_only.
  intros post question [<-|[]] H. discriminate H.
Defined.

(** ** [create_book] (src/book.py) *)

Section CreateBook.


End CreateBook.



(** X22. [create_book] is idempotent: when it has returned a Book, a second
    call with the same title, author and user returns the same Book and
    writes nothing.  The Book it returns is stored under that title and
    author, and it leaves the Post, Genre and ClassifiedPost tables
    alone. *)
Theorem create_book_idempotent :
  forall t a user_id db db1 b,
    create_book t a user_id db = (db1, Reply b) ->
    create_book t a user_id db1 = (db1, Reply b)
    /\ Book.title b = t /\ Book.author b = a /\ In b (books db1)
    /\ posts db1 = posts db /\ genres db1 = genres db
    /\ classified_posts db1 = classified_posts db.
Proof.
  intros t a user_id db db1 b. unfold create_book at 1.
  destruct (select_book t (Some a) db) as [existing|] eqn:Hsel.
  - assert (Hkey : Book.title existing = t /\ Book.author existing = a
                   /\ In existing (books db)).
    { unfold select_book in Hsel. apply find_some in Hsel as [Hin H].
      apply andb_true_iff in H as [Ht Ha].
      apply String.eqb_eq in Ht, Ha. auto. }
    destruct (select_saved_book (Book.id existing) user_id db) as [s|] eqn:Hs.
    + intros [= <- <-]. unfold create_book. rewrite Hsel, Hs. tauto.
    + unfold commit_saved_skeet. destruct (existsb _ _); [discriminate|].
      intros [= <- <-]. cbn [posts genres classified_posts books add_saved_skeet].
      split; [|tauto]. unfold create_book.
      change (select_book t (Some a) (add_saved_skeet db _))
        with (select_book t (Some a) db).
      rewrite Hsel.
      unfold select_saved_book in *. cbn [saved_skeets add_saved_skeet].
      rewrite find_snoc, Hs. cbn [SavedSkeet.book_id SavedSkeet.user_id].
      now rewrite !Z.eqb_refl.
  - unfold commit_saved_skeet. cbn [saved_skeets add_book].
    destruct (existsb _ _); [discriminate|]. intros [= <- <-].
    cbn [posts genres classified_posts books add_saved_skeet add_book
         Book.title Book.author].
    repeat split; [|apply in_or_app; right; now left].
    unfold create_book.
    assert (select_book t (Some a)
              (add_saved_skeet
                 (add_book db
                    {| Book.id := next_id (map Book.id (books db));
                       Book.title := t; Book.author := a;
                       Book.genre_id := 1 |})
                 {| SavedSkeet.id := next_id (map SavedSkeet.id (saved_skeets db));
                    SavedSkeet.post_id := 0; SavedSkeet.user_id := user_id;
                    SavedSkeet.book_id :=
                      Some (next_id (map Book.id (books db))) |})
            = Some {| Book.id := next_id (map Book.id (books db));
                      Book.title := t; Book.author := a;
                      Book.genre_id := 1 |}) as ->.
    { unfold select_book in *. cbn [books add_saved_skeet add_book].
      rewrite find_snoc, Hsel. cbn [Book.title Book.author].
      now rewrite !String.eqb_refl. }
    cbn [Book.id].
    unfold select_saved_book. cbn [saved_skeets add_saved_skeet add_book].
    rewrite find_snoc. cbn [SavedSkeet.book_id SavedSkeet.user_id].
    rewrite !Z.eqb_refl. cbn [andb].
    now destruct (find _ (saved_skeets db)).
Qed.

Lemma create_book_idempotent_witness :
  let db1 := fst (create_book "Dune" "Frank Herbert" 7 empty_db) in
  fst (create_book "Dune" "Frank Herbert" 7 db1) = db1.
Proof.
  intros db1.
  destruct (create_book_idempotent "Dune" "Frank Herbert" 7 empty_db db1
              {| Book.id := 1; Book.title := "Dune";
                 Book.author := "Frank Herbert"; Book.genre_id := 1 |}
              eq_refl) as [H _].
  now rewrite H.
Defined.

(** ** Running the batch again *)

Section Settled.

Variable zs : string -> list string -> external (list string).
Variable qa : string -> string -> external (option (option string)).
Variable iso : string -> option datetime.

Lemma find_map_set_book_id (f : SavedSkeet.t -> bool) sid bid l :
  (forall s, f (set_book_id sid bid s) = f s) ->
  find f (map (set_book_id sid bid) l)
  = option_map (set_book_id sid bid) (find f l).
Proof.
  intros Hf. induction l as [|s l IH]; [reflexivity|].
  cbn [map find]. rewrite Hf. now destruct (f s).
Qed.

Lemma set_book_id_keeps_book sid bid s :
  SavedSkeet.book_id s <> None ->
  SavedSkeet.book_id (set_book_id sid bid s) <> None.
Proof. unfold set_book_id. destruct (Z.eqb _ _); [discriminate|trivial]. Qed.

Lemma settled_write text genre ca ct db db1 :
  write db db1 -> settled text genre ca ct db -> settled text genre ca ct db1.
Proof.
  intros W (post & g & cp & s & Hp & Hg & Hc & Hs & Hb).
  destruct (write_selects db db1 W) as (S1 & S2 & S3).
  assert (Hbook : forall t book, select_book t ca db = Some book ->
                                 select_book t ca db1 = Some book).
  { intros t book. unfold select_book.
    destruct W; cbn [books add_post add_genre add_book add_classified_post
                      add_saved_skeet backfill]; trivial.
    apply find_app_some. }
  assert (Hskeet : exists s',
            select_saved_skeet (Post.id post) db1 = Some s'
            /\ (SavedSkeet.book_id s <> None -> SavedSkeet.book_id s' <> None)).
  { unfold select_saved_skeet in *.
    destruct W; unfold add_post, add_genre, add_book, add_classified_post,
                  add_saved_skeet, backfill; cbn [saved_skeets]; eauto.
    - exists s. split; [apply find_app_some; exact Hs|trivial].
    - rewrite find_map_set_book_id, Hs.
      + eexists. split; [reflexivity|apply set_book_id_keeps_book].
      + intros x. unfold set_book_id.
        destruct (Z.eqb (SavedSkeet.id x) _); reflexivity. }
  destruct Hskeet as (s' & Hs' & Hkeep).
  exists post, g, cp, s'. repeat split; auto.
  destruct ct as [[|c t]|]; trivial.
  destruct Hb as [(book & Hbk) Hne]. split; eauto.
Qed.

Lemma settled_writes text genre ca ct db db1 :
  writes db db1 -> settled text genre ca ct db -> settled text genre ca ct db1.
Proof.
  induction 1 as [|db db1 db2 W _ IH]; [trivial|].
  intros H. apply IH. now apply (settled_write _ _ _ _ db).
Qed.

(** A post that is settled is processed without a write. *)
Lemma settled_noop self genre ca ct db :
  settled (post_text self) genre ca ct db ->
  save_genre_to_db self genre db = (db, Ok tt)
  /\ save_entity self genre ca ct db = (db, Ok tt).
Proof.
  intros (post & g & cp & s & Hp & Hg & Hc & Hs & Hb). split.
  - now apply (save_genre_noop self genre db post g cp).
  - assert (Hskeet : forall book,
              (book = None \/ SavedSkeet.book_id s <> None) ->
              save_skeet_to_db self book db = (db, Ok tt)).
    { intros book Hbook. unfold save_skeet_to_db.
      rewrite bind_run, (post_of_found _ _ _ Hp), Hs.
      destruct book as [b|]; [|reflexivity].
      destruct (SavedSkeet.book_id s); [reflexivity|].
      destruct Hbook as [|Hbook]; [discriminate|congruence]. }
    unfold save_entity. destruct ct as [[|c t]|]; try (apply Hskeet; now left).
    destruct Hb as [(book & Hbk) Hne].
    rewrite bind_run, (save_book_noop self (String c t) ca genre db g book);
      trivial.
    apply Hskeet. now right.
Qed.

Lemma save_skeet_with_book self b db :
  exists s,
    select_saved_skeet (post_key self db)
      (exec (save_skeet_to_db self (Some b)) db) = Some s
    /\ SavedSkeet.book_id s <> None.
Proof.
  destruct (save_skeet_spec self (Some b) db) as (_ & _ & H).
  rewrite select_saved_skeet_keyed.
  destruct (skeets_keyed 1 (post_key self db) db) as [|s r] eqn:Hk.
  - destruct H as (s & -> & Hb). exists s. split; [reflexivity|].
    rewrite Hb. discriminate.
  - destruct (SavedSkeet.book_id s) eqn:Hb.
    + rewrite H, (skeets_keyed_skeets _ _ _ _ (post_of_saved_skeets _ _)), Hk.
      exists s. split; [reflexivity|congruence].
    + destruct H as (s' & r' & -> & _ & Hb'). exists s'.
      split; [reflexivity|congruence].
Qed.

Lemma save_entity_settles self genre ca ct db db1 post g cp :
  select_post (post_text self) db = Some post ->
  select_genre genre db = Some g ->
  select_classified (Post.id post) (Genre.id g) db = Some cp ->
  save_entity self genre ca ct db = (db1, Ok tt) ->
  settled (post_text self) genre ca ct db1.
Proof.
  intros Hp Hg Hc Hs.
  destruct (writes_selects db db1) as (S1 & S2 & S3).
  { pose proof (save_entity_writes self genre ca ct db) as W.
    unfold exec in W. now rewrite Hs in W. }
  assert (Hkey : forall dbx, select_post (post_text self) dbx = Some post ->
                             post_key self dbx = Post.id post).
  { intros dbx H. unfold post_key, outcome.
    now rewrite (post_of_found _ _ _ H). }
  unfold save_entity in Hs.
  assert (Hnone : save_skeet_to_db self None db = (db1, Ok tt) ->
                  settled (post_text self) genre ca None db1
                  /\ exists s, select_saved_skeet (Post.id post) db1 = Some s).
  { rewrite save_skeet_to_db_returns. intros [= E].
    pose proof (save_skeet_to_db_saves self None db) as Hsaved.
    rewrite E, (Hkey db Hp) in Hsaved.
    destruct (select_saved_skeet (Post.id post) db1) as [s|] eqn:Es.
    2:{ rewrite select_saved_skeet_keyed in Es.
        destruct (skeets_keyed 1 (Post.id post) db1);
          [now elim Hsaved|discriminate]. }
    split; [|eauto]. exists post, g, cp, s. repeat split; auto. }
  destruct ct as [[|c t]|].
  - destruct (Hnone Hs) as [(p' & g' & cp' & s' & H) _].
    exists p', g', cp', s'. tauto.
  - rewrite bind_run in Hs.
    destruct (save_book_to_db self (String c t) ca genre db) as [dbb [book|e]]
      eqn:Hb; [|discriminate].
    rewrite save_skeet_to_db_returns in Hs. injection Hs as Hs.
    destruct (save_book_ok _ _ _ _ _ _ _ Hb) as (_ & Hsel & _ & Hposts & _).
    destruct (save_skeet_frame self (Some book) dbb) as (_ & _ & Hbs & _).
    destruct (save_skeet_with_book self book dbb) as (s & Hsk & Hne).
    rewrite Hs in *.
    rewrite (Hkey dbb) in Hsk
      by now rewrite (select_post_posts _ db dbb Hposts).
    exists post, g, cp, s. repeat split; auto.
    exists book. now rewrite (select_book_books _ _ dbb db1 Hbs).
  - apply (Hnone Hs).
Qed.

Lemma process_post_processed post db db1 a :
  process_post zs qa iso post db = (db1, Ok a) ->
  processed zs qa iso db1 post a.
Proof.
  unfold process_post.
  destruct (iso (Raw.timestamp post)) as [ts|] eqn:Hts; [|discriminate].
  set (self := classifier_of post ts).
  unfold lift. rewrite !bind_run.
  destruct (classify_genre zs self) as [genre|e] eqn:Hg; [|discriminate].
  rewrite !bind_run, !save_genre_to_db_returns, !bind_run.
  destruct (extract_entities qa self) as [v|e] eqn:He; [|discriminate].
  destruct (extract_entities_singletons qa self v He) as (ca & ct & ->).
  cbn [fst snd combine]. rewrite !bind_run, !save_entities_one.
  destruct (save_genre_done self genre db) as (p & g & cp & Hp & Hsel & Hc).
  cbv zeta in Hp, Hsel, Hc.
  destruct (save_entity self genre ca ct _) as [db1' [[]|e]] eqn:Hs;
    [|discriminate].
  unfold ret. intros [= <- <-].
  exists ts, genre, ca, ct. repeat split; trivial.
  apply (save_entity_settles self genre ca ct _ _ p g cp Hp Hsel Hc Hs).
Qed.

Lemma processed_writes db db1 post a :
  writes db db1 -> processed zs qa iso db post a ->
  processed zs qa iso db1 post a.
Proof.
  intros W (ts & genre & ca & ct & H1 & H2 & H3 & H4 & H5).
  exists ts, genre, ca, ct. repeat split; trivial.
  now apply (settled_writes _ _ _ _ db).
Qed.

Lemma classify_and_save_posts_processed raw_posts :
  forall db db1 done,
    classify_and_save_posts zs qa iso raw_posts db = (db1, Ok done) ->
    Forall2 (processed zs qa iso db1) raw_posts done.
Proof.
  induction raw_posts as [|post rest IH]; intros db db1 done.
  - cbn. intros [= <- <-]. constructor.
  - rewrite classify_and_save_posts_cons.
    destruct (process_post zs qa iso post db) as [db2 [a|e]] eqn:Hp;
      [|discriminate].
    destruct (classify_and_save_posts zs qa iso rest db2) as [db3 [r|e]]
      eqn:Hr; [|discriminate].
    intros [= <- <-]. constructor; [|now apply (IH db2)].
    apply (processed_writes db2).
    + pose proof (classify_and_save_posts_writes zs qa iso rest db2) as W.
      unfold exec in W. now rewrite Hr in W.
    + now apply (process_post_processed post db).
Qed.

Lemma processed_noop db post a :
  processed zs qa iso db post a ->
  process_post zs qa iso post db = (db, Ok a).
Proof.
  intros (ts & genre & ca & ct & Hts & Hg & He & -> & Hs).
  unfold process_post. rewrite Hts. unfold lift.
  rewrite bind_run, Hg, bind_run.
  destruct (settled_noop (classifier_of post ts) genre ca ct db Hs) as [E1 E2].
  rewrite E1, bind_run, He. cbn [fst snd combine].
  now rewrite bind_run, save_entities_one, E2.
Qed.

Lemma classify_and_save_posts_noop db raw_posts done :
  Forall2 (processed zs qa iso db) raw_posts done ->
  classify_and_save_posts zs qa iso raw_posts db = (db, Ok done).
Proof.
  induction 1 as [|post a rest done Hp _ IH]; [reflexivity|].
  now rewrite classify_and_save_posts_cons, (processed_noop db post a Hp), IH.
Qed.

End Settled.

(** X23. When [classify_and_save_posts] returns, every fetched post is
    persisted: the posts come back in order, each with its genre, and in
    the store each has its Post (by its text), the Genre it was given,
    their ClassifiedPost and a SavedSkeet of user 1. *)
Theorem classify_and_save_posts_persists_all :
  forall zs qa iso raw_posts db done,
    outcome (classify_and_save_posts zs qa iso raw_posts) db = Ok done ->
    let db1 := exec (classify_and_save_posts zs qa iso raw_posts) db in
    map raw done = raw_posts
    /\ Forall (fun a =>
         exists post g cp s,
           select_post (Raw.text (raw a)) db1 = Some post
           /\ select_genre (predicted_genre a) db1 = Some g
           /\ select_classified (Post.id post) (Genre.id g) db1 = Some cp
           /\ select_saved_skeet (Post.id post) db1 = Some s) done.
Proof.
  intros zs qa iso raw_posts db done. unfold outcome, exec.
  destruct (classify_and_save_posts zs qa iso raw_posts db) as [db1 r] eqn:E.
  cbn [fst snd]. intros ->.
  pose proof (classify_and_save_posts_processed zs qa iso _ _ _ _ E) as H.
  clear E. induction H as [|post a rest done Hp _ [IH1 IH2]];
    [split; constructor|].
  destruct Hp as (ts & genre & ca & ct & _ & _ & _ & -> & Hs).
  split; [cbn [map raw]; now rewrite IH1|].
  constructor; [|exact IH2]. cbn [raw predicted_genre].
  destruct Hs as (p & g & cp & s & H1 & H2 & H3 & H4 & _). eauto 10.
Qed.

Lemma classify_and_save_posts_persists_all_witness :
  let run := classify_and_save_posts zs_stub (qa_stub "Frank Herbert" "Dune")
               iso_stub [raw_post "first"; raw_post "third"] in
  map raw (match outcome run empty_db with Ok done => done | Raise _ => [] end)
  = [raw_post "first"; raw_post "third"].
Proof.
  intros run.
  exact (proj1 (classify_and_save_posts_persists_all zs_stub
                  (qa_stub "Frank Herbert" "Dune") iso_stub
                  [raw_post "first"; raw_post "third"] empty_db _ eq_refl)).
Defined.

(** X8. The batch is idempotent: when [classify_and_save_posts] has
    returned, running it again on the same posts with the same answers of
    the capabilities writes nothing and returns the same. *)
Theorem classify_and_save_posts_idempotent :
  forall zs qa iso raw_posts db done,
    outcome (classify_and_save_posts zs qa iso raw_posts) db = Ok done ->
    let db1 := exec (classify_and_save_posts zs qa iso raw_posts) db in
    classify_and_save_posts zs qa iso raw_posts db1 = (db1, Ok done).
Proof.
  intros zs qa iso raw_posts db done. unfold outcome, exec.
  destruct (classify_and_save_posts zs qa iso raw_posts db) as [db1 r] eqn:E.
  cbn [fst snd]. intros ->.
  apply classify_and_save_posts_noop.
  now apply (classify_and_save_posts_processed zs qa iso raw_posts db).
Qed.

Lemma classify_and_save_posts_idempotent_witness :
  let run := classify_and_save_posts zs_stub (qa_stub "Frank Herbert" "Dune")
               iso_stub [raw_post "first"; raw_post "third"; raw_post "first"] in
  exec run (exec run empty_db) = exec run empty_db.
Proof.
  intros run.
  pose proof (classify_and_save_posts_idempotent zs_stub
                (qa_stub "Frank Herbert" "Dune") iso_stub
                [raw_post "first"; raw_post "third"; raw_post "first"]
                empty_db _ eq_refl) as H.
  cbv zeta in H. exact (f_equal fst H).
Defined.
